(** * I-V sweep with a Keithley 6220 current source and a Keithley 2182
      nanovoltmeter: a shallow embedding of the Python sources

    Embedded files:
    - [Scripts/Jupyter/IV/IVkeithley.py] (and its copy with a GUI window,
      [Scripts/Jupyter/IV/IVkeithley/IVkeithley.py]): [CurrentValues] and the
      procedure class [IV];
    - [pymeasure/instruments/keithley/keithley6220.py]: class [Keithley6220];
    - [pymeasure/instruments/keithley/keithley2182.py]: class [Keithley2182].

    Conventions of the embedding:
    - Python numbers (int and float) are exact rationals [Q].  On integer
      arguments the arithmetic of the sources is exact and is what the
      model computes; the rounding of binary floating point is not
      modelled, so statements about the values of a waveform are made for
      integer arguments, and statements for every argument are those that
      do not depend on the rounding (lengths of degenerate ranges, order of
      events, which exception is raised).
    - The base class [pymeasure.instruments.Instrument] is not among the
      embedded files; what the classes here inherit from it (the methods it
      offers, how [Instrument.control] and [Instrument.setting] read their
      arguments) is modelled in the module [Instrument] below.
    - Everything a method does to the outside world (adapter writes and
      queries, sleeps, emitted records, log lines, prints) is appended to one
      chronological [trace]; the outside world answers as a function of the
      trace so far.
    - A Python exception is a value [Raise e]; the trace up to the point where
      it was raised is kept. *)

From Stdlib Require Import ZArith QArith Qround Qabs Qpower Lqa Lia.
From Stdlib Require Import String Ascii List DecimalString Sorted.
From stdpp Require Import gmap strings.
Import ListNotations.

Local Open Scope string_scope.
Local Open Scope Z_scope.
Local Open Scope Q_scope.
Local Open Scope list_scope.

(** ** Python exceptions and results *)

Inductive exn : Type :=
| NameError (name : string)
| AttributeError (attr : string)
| IndexError
| ValueError
| ZeroDivisionError
| TypeError
| OverflowError.

(** The class name of an exception, as [type(e).__name__] gives it. *)
Definition exn_class (e : exn) : string :=
  match e with
  | NameError _ => "NameError"
  | AttributeError _ => "AttributeError"
  | IndexError => "IndexError"
  | ValueError => "ValueError"
  | ZeroDivisionError => "ZeroDivisionError"
  | TypeError => "TypeError"
  | OverflowError => "OverflowError"
  end.

Inductive result (A : Type) : Type :=
| Ok (a : A)
| Raise (e : exn).
Arguments Ok {A} a.
Arguments Raise {A} e.

(** ** The part of numpy the scripts use *)

Module np.

(** [len(np.arange(start, stop, step))] is [ceil((stop - start) / step)],
    and 0 when that is negative. *)
Definition arange_len (start stop step : Q) : nat :=
  Z.to_nat (Qceiling ((stop - start) / step)).

(** [np.arange(start, stop, step)]: the values [start + i * step].  A zero
    step is an error (numpy raises ZeroDivisionError on integers and
    ValueError on floats; one constructor stands for both here).  On
    integers this is the array numpy builds; on floats numpy rounds the
    quotient and every product, which the exact values here do not
    follow. *)
Definition arange (start stop step : Q) : result (list Q) :=
  if Qeq_bool step 0 then Raise ZeroDivisionError
  else Ok (map (fun i : nat => start + inject_Z (Z.of_nat i) * step)
               (seq 0 (arange_len start stop step))).

(** [np.hstack] of one-dimensional arrays. *)
Definition hstack (arrays : list (list Q)) : list Q := concat arrays.

(** [np.append(arr, value)]. *)
Definition append (arr : list Q) (value : Q) : list Q := arr ++ [value].

(** [np.linspace(start, stop, num)] with the default [endpoint=True]:
    [num] evenly spaced samples, the last one being [stop] when
    [num >= 2]; a negative [num] is an error. *)
Definition linspace (start stop : Q) (num : Z) : result (list Q) :=
  if (num <? 0)%Z then Raise ValueError
  else
    let step := (stop - start) / inject_Z (num - 1) in
    Ok (map (fun i : nat => start + inject_Z (Z.of_nat i) * step)
            (seq 0 (Z.to_nat num))).

End np.

(** ** [CurrentValues] (IVkeithley.py, lines 13-17)

    The three ramps and the appended zero, in the order of the source.  The
    values are those of [np.arange] above: exact on integer arguments. *)

Definition CurrentValues (rangeA stepA : Q) : result (list Q) :=
  match np.arange 0 rangeA stepA with
  | Raise e => Raise e
  | Ok up =>
      match np.arange rangeA (- rangeA) (- stepA) with
      | Raise e => Raise e
      | Ok down =>
          match np.arange (- rangeA) 0 stepA with
          | Raise e => Raise e
          | Ok back =>
              let CurrentValues := np.hstack [up; down; back] in
              let CurrentValues := np.append CurrentValues 0 in
              Ok CurrentValues
          end
      end
  end.

(** ** Values, events and the outside world *)

(** The Python values that cross the modelled interfaces: numbers, strings,
    and objects the model does not look into (modules, classes, functions). *)
Inductive pyval : Type :=
| PyNum (q : Q)
| PyStr (s : string)
| PyObj (kind : string).

(** A float that may be infinite or not a number: the quotient of two
    numpy floats never raises. *)
Inductive npfloat : Type :=
| Finite (q : Q)
| PosInf
| NegInf
| NaN.

(** What [Procedure.emit] sends to the result sink. *)
Inductive payload : Type :=
| Results (current voltage : Q) (resistance : npfloat)
| Progress (percent : Q).

(** One observable effect.  [address] is the adapter the instrument object
    was built on. *)
Inductive event : Type :=
| Write (address command : string)
| Ask (address command reply : string)
| AskValues (address command : string) (reply : list pyval)
| Read (address reply : string)
| Sleep (seconds : Q)
| Emit (topic : string) (data : payload)
| Log (level message : string)
| Print (text : string).

(** The outside world: what the adapters answer, what the clock shows and
    whether a stop was requested, each as a function of everything that has
    happened so far. *)
Record environment : Type := {
  env_ask : list event -> string -> string -> string;
  env_values : list event -> string -> string -> list pyval;
  env_read : list event -> string -> string;
  env_time : list event -> Q;
  env_should_stop : list event -> bool
}.

(** ** The effect monad: a trace that survives exceptions *)

Definition M (A : Type) : Type := list event -> result A * list event.

#[global] Instance M_ret : MRet M := fun A a tr => (Ok a, tr).
#[global] Instance M_bind : MBind M := fun A B f m tr =>
  match m tr with
  | (Ok a, tr') => f a tr'
  | (Raise e, tr') => (Raise e, tr')
  end.

Definition raise {A} (e : exn) : M A := fun tr => (Raise e, tr).
Definition tell (e : event) : M unit := fun tr => (Ok tt, tr ++ [e]).
Definition lift {A} (r : result A) : M A := fun tr => (r, tr).

(** [for x in xs: body x], where the body says whether to [break]. *)
Inductive flow : Type := Continue | Break.

Fixpoint for_each {A} (xs : list A) (body : A -> M flow) : M unit :=
  match xs with
  | [] => mret tt
  | x :: rest =>
      f ← body x;
      match f with
      | Continue => for_each rest body
      | Break => mret tt
      end
  end.

(** [enumerate(xs)]. *)
Definition enumerate {A} (xs : list A) : list (nat * A) :=
  combine (seq 0 (length xs)) xs.

(** ** Strings *)

(** [s.split(sep)] for a one-character separator: never empty. *)
Fixpoint split (sep : ascii) (s : string) : list string :=
  match s with
  | EmptyString => [EmptyString]
  | String c rest =>
      if Ascii.eqb c sep then EmptyString :: split sep rest
      else match split sep rest with
           | piece :: pieces => String c piece :: pieces
           | [] => [String c EmptyString]
           end
  end.

(** [s.replace(old, '')] for a one-character [old]. *)
Fixpoint remove_char (old : ascii) (s : string) : string :=
  match s with
  | EmptyString => EmptyString
  | String c rest =>
      if Ascii.eqb c old then remove_char old rest
      else String c (remove_char old rest)
  end.

Fixpoint contains_char (c : ascii) (s : string) : bool :=
  match s with
  | EmptyString => false
  | String c' rest => Ascii.eqb c' c || contains_char c rest
  end.

(** [template % args]: each conversion ([%] and the letter after it) is
    replaced by the next rendered argument.  The templates of the sources
    have as many conversions as arguments. *)
Fixpoint percent (template : string) (args : list string) : string :=
  match template with
  | String "%" (String conv rest) =>
      match args with
      | a :: args' => a +:+ percent rest args'
      | [] => String "%" (String conv rest)
      end
  | String c rest => String c (percent rest args)
  | EmptyString => EmptyString
  end.

(** [template.format(args)] for the fields [{0}] to [{9}]: each field is
    replaced by the text of the argument it numbers.  The templates of the
    sources number only arguments that are given. *)
Fixpoint format (template : string) (args : list string) : string :=
  match template with
  | String "{" (String d (String "}" rest)) =>
      nth (nat_of_ascii d - 48) args "" +:+ format rest args
  | String c rest => String c (format rest args)
  | EmptyString => EmptyString
  end.

(** ** The Python builtins the sources call

    They are not code of the repository: the development is parametric in
    them, and an implementation on decimal literals is given further down
    for running the model. *)
Class Python : Type := {
  (** ["%g" % x] *)
  fmt_g : Q -> string;
  (** ["%d" % x] *)
  fmt_d : Q -> string;
  (** [float(s)]; [None] stands for ValueError *)
  py_float : string -> option Q;
  (** [int(s)]; [None] stands for ValueError *)
  py_int : string -> option Z
}.

(** ** Adapter, clock and logging primitives *)

Section Primitives.
Context (env : environment).

Definition adapter_write (address command : string) : M unit :=
  tell (Write address command).

Definition adapter_ask (address command : string) : M string :=
  fun tr => let reply := env_ask env tr address command in
            (Ok reply, tr ++ [Ask address command reply]).

Definition adapter_values (address command : string) : M (list pyval) :=
  fun tr => let reply := env_values env tr address command in
            (Ok reply, tr ++ [AskValues address command reply]).

Definition adapter_read (address : string) : M string :=
  fun tr => let reply := env_read env tr address in
            (Ok reply, tr ++ [Read address reply]).

(** [time.time()] *)
Definition time_time : M Q := fun tr => (Ok (env_time env tr), tr).

(** [Procedure.should_stop()] *)
Definition should_stop : M bool :=
  fun tr => (Ok (env_should_stop env tr), tr).

End Primitives.

(** [time.sleep(seconds)]: a negative length is refused with ValueError
    before anything is waited for. *)
Definition sleep (seconds : Q) : M unit :=
  if Qle_bool 0 seconds then tell (Sleep seconds) else raise ValueError.

(** [log.info], [log.debug], [log.warning] *)
Definition log (level message : string) : M unit := tell (Log level message).

(** [Procedure.emit(topic, data)] *)
Definition emit (topic : string) (data : payload) : M unit :=
  tell (Emit topic data).

(** ** The instrument base class

    [pymeasure.instruments.Instrument] and [pymeasure.instruments.validators]
    are not among the embedded files. *)
Module Instrument.

(** The methods and properties the classes here inherit: those of
    [Instrument] and those of the mix-in [KeithleyBuffer].  There is no
    [query] among them: the base class asks with [ask]. *)
Definition base_methods : list string :=
  ["ask"; "write"; "read"; "values"; "binary_values"; "clear"; "reset";
   "shutdown"; "check_errors"; "id"; "control"; "measurement"; "setting";
   "config_buffer"; "is_buffer_full"; "wait_for_buffer"; "buffer_data";
   "start_buffer"; "reset_buffer"; "stop_buffer"; "disable_buffer"].

(** Looking a method up on an instrument whose class defines [own]:
    AttributeError when neither the class nor the base class has it. *)
Definition method (own : list string) (name : string) : result unit :=
  if existsb (String.eqb name) (own ++ base_methods) then Ok tt
  else Raise (AttributeError name).

(** What ends up in the [validator] parameter of a property: a function
    that is called on the value, or an object that cannot be called. *)
Inductive validator : Type :=
| Callable (f : Q -> Q)
| NotCallable.

(** Modelled from the spec: the validator [truncated_range] of
    [pymeasure.instruments.validators] is missing; "a truncated numeric
    range (value is clamped ... if outside [min, max])". *)
Definition truncated_range (value : Q) (values : Q * Q) : Q :=
  let (lo, hi) := values in
  if Qle_bool lo value && Qle_bool value hi then value
  else if Qle_bool hi value then hi
  else lo.

Section Properties.
Context `{Python}.

(** Modelled from the spec: the setter of a property declared with
    [Instrument.control] is missing; "validates value against the
    declared constraint; formats the set-command with the validated
    value; issues it as a write.  No read-back verification is
    performed." *)
Definition control_set (address set_command : string)
    (validator : Q -> Q) (value : Q) : M unit :=
  adapter_write address (percent set_command [fmt_g (validator value)]).

(** The setter of a property declared with
    [Instrument.setting(set_command, docs, validator, ...)]: the value goes
    through the validator, the set-command is formatted with the outcome
    and written.  Calling a validator that is not callable is a
    TypeError, raised before anything is written. *)
Definition setting_set (address set_command : string) (v : validator)
    (value : Q) : M unit :=
  match v with
  | Callable f => adapter_write address (percent set_command [fmt_g (f value)])
  | NotCallable => raise TypeError
  end.

End Properties.

End Instrument.

(** ** [Keithley2182] (keithley2182.py) *)
Module Keithley2182.

Record self : Type := {
  adapter : string;
  name : string;
  channel : Z
}.

(** [__init__] (lines 44-49) *)
Definition init (adapter : string) : self :=
  {| adapter := adapter; name := "Keithley 2182 Nanovoltmeter"; channel := 1 |}.

Definition with_channel (s : self) (c : Z) : self :=
  {| adapter := adapter s; name := name s; channel := c |}.

(** The methods and the property the class defines itself.  An object has
    these, what it inherits, and the attributes the constructor assigns. *)
Definition own_methods : list string :=
  ["set_channel"; "set_range"; "voltage_nplc"; "set_analog_filtering";
   "measure_voltage"; "get_last_error"; "reset"; "setup"].

(** [set_channel] (lines 51-62): returns the object after the call. *)
Definition set_channel (s : self) (channel_number : Z) : M self :=
  if (channel_number =? 1)%Z then
    adapter_write (adapter s) ":SENSE:CHANNEL 1";;
    mret (with_channel s 1)
  else if (channel_number =? 2)%Z then
    adapter_write (adapter s) ":SENSE:CHANNEL 2";;
    mret (with_channel s 2)
  else if (channel_number =? 0)%Z then
    adapter_write (adapter s) ":SENSE:CHANNEL 0";;
    mret (with_channel s 0)
  else
    tell (Print "incorrect channel number");;
    mret s.

Section Methods.
Context `{Python} (env : environment).

(** [float(tmp[0]) * 10**int(tmp[1])] with [tmp = reply.split('E')]
    (lines 82-83); the operands are evaluated left to right.  [10**n] is an
    integer for [n >= 0], and the product with a float converts it to a
    float first: from [10**309] on that conversion is an OverflowError. *)
Definition parse_reply (reply : string) : result Q :=
  let tmp := split "E" reply in
  match nth_error tmp 0 with
  | None => Raise IndexError
  | Some mantissa =>
      match py_float mantissa with
      | None => Raise ValueError
      | Some m =>
          match nth_error tmp 1 with
          | None => Raise IndexError
          | Some exponent =>
              match py_int exponent with
              | None => Raise ValueError
              | Some n =>
                  if (309 <=? n)%Z then Raise OverflowError
                  else Ok (m * 10 ^ n)
              end
          end
      end
  end.

(** The loop of lines 81-83, [rounds] iterations from the running sum
    [result].  [self.query] is looked up on the object before it is
    called. *)
Fixpoint measure_rounds (s : self) (rounds : nat) (result : Q) : M Q :=
  match rounds with
  | O => mret result
  | S rounds' =>
      lift (Instrument.method own_methods "query");;
      reply ← adapter_ask env (adapter s) "READ?";
      value ← lift (parse_reply reply);
      measure_rounds s rounds' (result + value)
  end.

(** [measure_voltage] (lines 78-84); [range(iterations)] is empty for
    [iterations <= 0]. *)
Definition measure_voltage (s : self) (iterations : Z) : M Q :=
  adapter_write (adapter s) "INITIATE:CONT OFF";;
  result ← measure_rounds s (Z.to_nat iterations) 0;
  if (iterations =? 0)%Z then raise ZeroDivisionError
  else mret (result / inject_Z iterations).

End Methods.

(** [get_last_error] (lines 86-87) *)
Definition get_last_error (env : environment) (s : self) : M string :=
  lift (Instrument.method own_methods "query");;
  adapter_ask env (adapter s) "SYST:ERR?".

(** [reset] (lines 89-91) *)
Definition reset (s : self) : M unit :=
  adapter_write (adapter s) "*RST";;
  adapter_write (adapter s) "*CLS".

(** [setup] (lines 93-100) *)
Definition setup (s : self) : M unit :=
  let commands := ["SENSe:VOLTage"; "SENSe:CHANnel 2";
                   "SENSe:VOLTage:NPLCycles 5"; "SYSTem:FAZero OFF"] in
  let commands := commands ++ ["SYSTem:AZERo OFF"; "SYSTem:LSYNc ON"] in
  let commands := commands ++ ["SENSe:VOLTage:CHANnel2:RANGe:AUTO ON"] in
  let commands := commands ++ ["SENSe:VOLTage:CHANnel2:LPASs OFF"; "INITiate";
                               "INITiate:CONTinuous OFF"] in
  for_each commands (fun command =>
    adapter_write (adapter s) command;; mret Continue).

Section Formatting.
Context `{Python}.

(** The text of an integer in a format field: its decimal digits, which is
    also what [%d] gives. *)
Definition int_text (z : Z) : string := fmt_d (inject_Z z).

(** [set_range] (lines 64-65).  The command is built from [self.channel]
    and [self.mes_range]; the parameter [mes_range] is not read.  [extra]
    holds the attributes assigned on the object from outside the class and
    [py_str] is [str]. *)
Definition set_range (py_str : pyval -> string) (s : self)
    (extra : gmap string pyval) (mes_range : pyval) : M unit :=
  match extra !! "mes_range" with
  | None => raise (AttributeError "mes_range")
  | Some range =>
      adapter_write (adapter s)
        (format "SENSE:VOLTAGE:CHANNEL {0}:RANGE:UPPER {1}"
           [int_text (channel s); py_str range])
  end.

(** [set_analog_filtering] (lines 75-76); [Status] is the text of the
    argument. *)
Definition set_analog_filtering (s : self) (Status : string) : M unit :=
  adapter_write (adapter s)
    (format ":SENSE:VOLTAGE:CHANNEL {0}:LPASS {1}"
       [int_text (channel s); Status]).

End Formatting.

End Keithley2182.

(** ** [Keithley6220] (keithley6220.py) *)
Module Keithley6220.

(** The object: the adapter it talks to, its name, and the attributes
    assigned on the instance ([__dict__]) beyond those. *)
Record self : Type := {
  adapter : string;
  name : string;
  dict : gmap string pyval
}.

(** [__init__] (lines 115-118) *)
Definition init (adapter : string) : self :=
  {| adapter := adapter; name := "Keithley 6220 DC Currunt Source"; dict := ∅ |}.

(** [obj.attr = value] for a name that is no property of the class: the
    value lands in the instance dictionary and nothing is sent. *)
Definition setattr (s : self) (attr : string) (value : pyval) : self :=
  {| adapter := adapter s; name := name s; dict := <[attr := value]> (dict s) |}.

(** [obj.attr] for a name that no class of the object defines: the
    instance dictionary decides. *)
Definition getattr (s : self) (attr : string) : result pyval :=
  match dict s !! attr with
  | Some v => Ok v
  | None => Raise (AttributeError attr)
  end.

Section Methods.
Context `{Python} (env : environment).

(** Setter of [current_range] (lines 62-69) *)
Definition set_current_range (s : self) (value : Q) : M unit :=
  Instrument.control_set (adapter s)
    "CURRent:RANGe:AUTO 0;CURRent:RANGe %g"
    (fun v => Instrument.truncated_range v (-105e-3, 105e-3)) value.

(** Setter of [current] (lines 70-74).  The declaration passes three
    positional arguments to [Instrument.setting]: ["CURRent?"] is taken as
    the set-command, ["CURRent %g"] as the documentation, and the
    documentation string as the validator, which is not callable. *)
Definition set_current (s : self) (value : Q) : M unit :=
  Instrument.setting_set (adapter s) "CURRent?" Instrument.NotCallable value.

(** [shutdown] (lines 120-123) *)
Definition shutdown (s : self) : M unit :=
  log "info" (percent "Shutting down %s." [name s]);;
  adapter_write (adapter s) "SourceMeter".

(** [enable_source] (lines 125-128) *)
Definition enable_source (s : self) : M unit :=
  adapter_write (adapter s) "OUTPUT ON".

(** [disable_source] (lines 130-133) *)
Definition disable_source (s : self) : M unit :=
  adapter_write (adapter s) "OUTPUT OFF".

(** [enable_auto_range] (lines 135-138) *)
Definition enable_auto_range (s : self) : M unit :=
  adapter_write (adapter s) "CURRent:RANGe:AUTO 1".

(** [disable_auto_range] (lines 140-143) *)
Definition disable_auto_range (s : self) : M unit :=
  adapter_write (adapter s) "CURRent:RANGe:AUTO 0".

(** [x[i]] on a string: the one-character string at [i]. *)
Definition char_at (x : string) (i : nat) : result pyval :=
  match String.get i x with
  | Some c => Ok (PyStr (String c EmptyString))
  | None => Raise IndexError
  end.

(** [x.replace(q, '')] with [q] the double-quote character: only strings
    have the method. *)
Definition strip_quotes (x : pyval) : result string :=
  match x with
  | PyStr m => Ok (remove_char (ascii_of_nat 34) m)
  | _ => Raise (AttributeError "replace")
  end.

(** Property [error] (lines 145-154).  [self.values] gives a list; when
    it is shorter than 2 the retry [self.read()] gives a string, which is
    then indexed by character.  The message is always a string. *)
Definition error (s : self) : M (pyval * string) :=
  err ← adapter_values env (adapter s) ":system:error?";
  if (length err <? 2)%nat then
    err ← adapter_read env (adapter s);
    code ← lift (char_at err 0);
    m ← lift (char_at err 1);
    message ← lift (strip_quotes m);
    mret (code, message)
  else
    match err with
    | code :: m :: _ =>
        message ← lift (strip_quotes m);
        mret (code, message)
    | _ => raise IndexError
    end.

(** [code != 0] *)
Definition nonzero (code : pyval) : bool :=
  match code with
  | PyNum q => negb (Qeq_bool q 0)
  | _ => true
  end.

(** ["Keithley 2400 reported error: %d, %s" % (code, message)]: [%d]
    wants a number. *)
Definition error_message (code : pyval) (message : string) : result string :=
  match code with
  | PyNum q =>
      Ok (percent "Keithley 2400 reported error: %d, %s" [fmt_d q; message])
  | _ => Raise TypeError
  end.

(** The [while] loop of [check_errors] (lines 160-165), unrolled at most
    [fuel] times; [None] when the loop is still running after that. *)
Fixpoint check_errors_loop (fuel : nat) (s : self) (code : pyval)
    (message : string) : M (option unit) :=
  if nonzero code then
    match fuel with
    | O => mret None
    | S fuel' =>
        t ← time_time env;
        text ← lift (error_message code message);
        log "info" text;;
        '(code', message') ← error s;
        t' ← time_time env;
        (if Qlt_le_dec 10 (t' - t)
         then log "warning" "Timed out for Keithley 2400 error retrieval."
         else mret tt);;
        check_errors_loop fuel' s code' message'
    end
  else mret (Some tt).

(** [check_errors] (lines 156-165) *)
Definition check_errors (fuel : nat) (s : self) : M (option unit) :=
  '(code, message) ← error s;
  check_errors_loop fuel s code message.

(** [reset] (lines 167-170) *)
Definition reset (s : self) : M unit :=
  adapter_write (adapter s) "*RST";;
  adapter_write (adapter s) "*CLS".

(** [ramp_to_current] (lines 172-186); [steps=30] and [pause=20e-3] are
    the defaults of the source. *)
Definition ramp_to_current (s : self) (target_current : Q) (steps : Z)
    (pause : Q) : M unit :=
  source_current ← lift (getattr s "source_current");
  match source_current with
  | PyNum start =>
      currents ← lift (np.linspace start target_current steps);
      for_each currents (fun current =>
        set_current s current;;
        sleep pause;;
        mret Continue)
  | _ => raise TypeError
  end.

End Methods.

End Keithley6220.

(** ** The procedure [IV] (IVkeithley.py, lines 20-68) *)
Module IV.

(** The object: the values of the three parameters, and the instruments
    once [startup] has created them. *)
Record self : Type := {
  current_range : Q;
  current_step : Q;
  delay : Q;
  meter : option Keithley2182.self;
  source : option Keithley6220.self
}.

(** [DATA_COLUMNS] (line 26) *)
Definition DATA_COLUMNS : list string :=
  ["Current (A)"; "Voltage (V)"; "Resistance (Ohm)"].

(** The names bound at the top level of IVkeithley.py: the imports, [log],
    [CurrentValues] and [IV]. *)
Definition module_globals : gmap string pyval :=
  list_to_map
    [("logging", PyObj "module"); ("sleep", PyObj "function");
     ("np", PyObj "module"); ("Keithley2182", PyObj "class");
     ("Keithley6220", PyObj "class"); ("Procedure", PyObj "class");
     ("FloatParameter", PyObj "class"); ("log", PyObj "Logger");
     ("CurrentValues", PyObj "function"); ("IV", PyObj "class")].

(** The names bound at the top level of IVkeithley/IVkeithley.py, which
    also imports the window classes and defines [MainWindow]. *)
Definition module_globals_gui : gmap string pyval :=
  list_to_map
    [("logging", PyObj "module"); ("sys", PyObj "module");
     ("sleep", PyObj "function"); ("np", PyObj "module");
     ("Keithley2182", PyObj "class"); ("Keithley6220", PyObj "class");
     ("QtGui", PyObj "module"); ("ManagedWindow", PyObj "class");
     ("Procedure", PyObj "class"); ("FloatParameter", PyObj "class");
     ("unique_filename", PyObj "function"); ("Results", PyObj "class");
     ("log", PyObj "Logger"); ("CurrentValues", PyObj "function");
     ("IV", PyObj "class"); ("MainWindow", PyObj "class")].

(** A bare name inside a method: the method has no such local, the class
    body is no enclosing scope, so the name is looked up in the globals of
    the module (and then in the builtins, which bind none of the names
    looked up here). *)
Definition load_global (globals : gmap string pyval) (name : string)
    : result pyval :=
  match globals !! name with
  | Some v => Ok v
  | None => Raise (NameError name)
  end.

(** A value used as a number. *)
Definition as_number (v : pyval) : result Q :=
  match v with
  | PyNum q => Ok q
  | _ => Raise TypeError
  end.

(** [voltage / current] with [current] an element of a numpy array: the
    division never raises, a zero divisor gives [nan] or an infinity. *)
Definition np_divide (voltage current : Q) : npfloat :=
  if Qeq_bool current 0 then
    if Qeq_bool voltage 0 then NaN
    else if Qle_bool 0 voltage then PosInf else NegInf
  else Finite (voltage / current).

(** [self.attr] for an attribute that [startup] creates. *)
Definition attribute {A} (attr : string) (value : option A) : result A :=
  match value with
  | Some v => Ok v
  | None => Raise (AttributeError attr)
  end.

Section Methods.
Context `{Python} (env : environment).

(** [startup] (lines 28-39): returns the object after the call. *)
Definition startup (s : self) : M self :=
  log "info" "Setting up instruments";;
  let meter := Keithley2182.init "GPIB::25" in
  Keithley2182.setup meter;;
  let source := Keithley6220.init "GPIB::1" in
  Keithley6220.enable_auto_range source;;
  let source := Keithley6220.setattr source "source_current_range"
                  (PyNum (current_range s * 1e-6)) in
  let source := Keithley6220.setattr source "complinance_voltage"
                  (PyNum 100) in
  Keithley6220.reset source;;
  Keithley6220.enable_source source;;
  sleep 2;;
  mret {| current_range := current_range s; current_step := current_step s;
          delay := delay s; meter := Some meter; source := Some source |}.

(** The body of the [for] loop of [execute] (lines 48-64) at index [i]
    and set-point [current], with [steps = len(currents)]. *)
Definition sweep_point (s : self) (steps : nat) (i : nat) (current : Q)
    : M flow :=
  log "debug" (percent "Measuring current: %g mA" [fmt_g current]);;
  src ← lift (attribute "source" (source s));
  Keithley6220.set_current src current;;
  sleep (delay s * 1e-3);;
  mtr ← lift (attribute "meter" (meter s));
  voltage ← Keithley2182.measure_voltage env mtr 1;
  let resistance := np_divide voltage current in
  emit "results" (Results current voltage resistance);;
  emit "progress"
    (Progress (100 * inject_Z (Z.of_nat i) / inject_Z (Z.of_nat steps)));;
  stop ← should_stop env;
  if (stop : bool) then
    log "warning" "Catch stop command in procedure";;
    mret Break
  else mret Continue.

(** Lines 43-64 of [execute]: the sweep over the waveform [currents]
    that line 42 built. *)
Definition sweep (s : self) (currents : list Q) : M unit :=
  let currents := map (fun c => c * 1e-6) currents in
  let steps := length currents in
  log "info" "Starting to sweep through current";;
  for_each (enumerate currents) (fun '(i, current) =>
    sweep_point s steps i current).

(** [execute] (lines 41-64).  Line 42 reads the bare names
    [CurrentValues], [current_range] and [current_step], in this order;
    [CurrentValues], when bound, is the function of the file. *)
Definition execute (globals : gmap string pyval) (s : self) : M unit :=
  _ ← lift (load_global globals "CurrentValues");
  range_value ← lift (load_global globals "current_range");
  step_value ← lift (load_global globals "current_step");
  step_number ← lift (as_number step_value);
  range_number ← lift (as_number range_value);
  currents ← lift (CurrentValues range_number (step_number * 1e-3));
  sweep s currents.

(** [shutdown] (lines 66-68) *)
Definition shutdown (s : self) : M unit :=
  src ← lift (attribute "source" (source s));
  Keithley6220.shutdown src;;
  log "info" "Finished".

End Methods.

End IV.

(** ** An implementation of the builtins on decimal literals

    [float] and [int] on an optional sign, decimal digits, a fraction and an
    exponent, with surrounding blanks; [%g] and [%d] on exact rationals.
    Digit-group underscores, [inf] and [nan] are left out. *)
Module Builtins.

Definition digit_of (c : ascii) : option Z :=
  let n := nat_of_ascii c in
  if (48 <=? n)%nat && (n <=? 57)%nat then Some (Z.of_nat (n - 48)) else None.

Definition is_blank (c : ascii) : bool :=
  let n := nat_of_ascii c in
  (n =? 32)%nat || ((9 <=? n)%nat && (n <=? 13)%nat).

Fixpoint lstrip (s : string) : string :=
  match s with
  | String c rest => if is_blank c then lstrip rest else s
  | EmptyString => EmptyString
  end.

Fixpoint rstrip (s : string) : string :=
  match s with
  | String c rest =>
      match rstrip rest with
      | EmptyString => if is_blank c then EmptyString else String c EmptyString
      | rest' => String c rest'
      end
  | EmptyString => EmptyString
  end.

Definition strip (s : string) : string := rstrip (lstrip s).

(** Reads a maximal run of digits: its value, its length, and the rest. *)
Fixpoint read_digits (s : string) (value : Z) (count : nat)
    : Z * nat * string :=
  match s with
  | String c rest =>
      match digit_of c with
      | Some d => read_digits rest (10 * value + d)%Z (S count)
      | None => (value, count, s)
      end
  | EmptyString => (value, count, s)
  end.

(** Reads an optional sign: [true] for minus. *)
Definition read_sign (s : string) : bool * string :=
  match s with
  | String "-" rest => (true, rest)
  | String "+" rest => (false, rest)
  | _ => (false, s)
  end.

Definition signed (negative : bool) (z : Z) : Z :=
  if negative then (- z)%Z else z.

Definition int (s : string) : option Z :=
  let (negative, s1) := read_sign (strip s) in
  match read_digits s1 0 0 with
  | (value, S _, EmptyString) => Some (signed negative value)
  | _ => None
  end.

(** The exponent part of a float literal, if any. *)
Definition read_exponent (s : string) : option Z :=
  match s with
  | EmptyString => Some 0%Z
  | String c rest =>
      if Ascii.eqb c "e" || Ascii.eqb c "E" then
        let (negative, s1) := read_sign rest in
        match read_digits s1 0 0 with
        | (value, S _, EmptyString) => Some (signed negative value)
        | _ => None
        end
      else None
  end.

Definition float (s : string) : option Q :=
  let (negative, s1) := read_sign (strip s) in
  let '(whole, nwhole, s2) := read_digits s1 0 0 in
  let '(frac, nfrac, s3) :=
    match s2 with
    | String "." rest => read_digits rest 0 0
    | _ => (0%Z, O, s2)
    end in
  if (nwhole + nfrac =? 0)%nat then None
  else
    match read_exponent s3 with
    | Some e =>
        let scale := (10 ^ Z.of_nat nfrac)%Z in
        let mantissa := inject_Z (whole * scale + frac) / inject_Z scale in
        let value := mantissa * 10 ^ e in
        Some (if negative then - value else value)
    | None => None
    end.

(** Decimal digits of a non-negative integer. *)
Definition digits (z : Z) : string :=
  NilZero.string_of_uint (N.to_uint (Z.to_N z)).

(** [%d]: the integer part, towards zero. *)
Definition percent_d (x : Q) : string :=
  let z := Z.quot (Qnum x) (Z.pos (Qden x)) in
  if (z <? 0)%Z then "-" +:+ digits (- z) else digits z.

Fixpoint log10_up (fuel : nat) (a : Q) (k : Z) : Z :=
  match fuel with
  | O => k
  | S fuel' =>
      if Qle_bool (10 ^ (k + 1)) a then log10_up fuel' a (k + 1)%Z else k
  end.

Fixpoint log10_down (fuel : nat) (a : Q) (k : Z) : Z :=
  match fuel with
  | O => k
  | S fuel' =>
      if Qle_bool (10 ^ k) a then k else log10_down fuel' a (k - 1)%Z
  end.

(** The decimal exponent [k] of [a > 0]: [10^k <= a < 10^(k+1)]. *)
Definition floor_log10 (a : Q) : Z :=
  let fuel := Z.to_nat (Z.log2 (Qnum a) + Z.log2 (Z.pos (Qden a)) + 2) in
  if Qle_bool 1 a then log10_up fuel a 0 else log10_down fuel a (-1).

(** Rounding to the nearest integer, ties to even. *)
Definition round_half_even (r : Q) : Z :=
  let f := Qfloor r in
  match Qcompare (r - inject_Z f) (1 # 2) with
  | Lt => f
  | Gt => (f + 1)%Z
  | Eq => if Z.even f then f else (f + 1)%Z
  end.

Fixpoint strip_trailing_zeros (s : string) : string :=
  match s with
  | String c rest =>
      match strip_trailing_zeros rest with
      | EmptyString => if Ascii.eqb c "0" then EmptyString else String c EmptyString
      | rest' => String c rest'
      end
  | EmptyString => EmptyString
  end.

Fixpoint zeros (n : nat) : string :=
  match n with O => EmptyString | S n' => String "0" (zeros n') end.

(** [whole.fraction] without trailing zeros, and without the point when
    nothing follows it. *)
Definition with_fraction (whole fraction : string) : string :=
  match strip_trailing_zeros fraction with
  | EmptyString => whole
  | f => whole +:+ "." +:+ f
  end.

(** [%g] with the default precision of 6 significant digits. *)
Definition percent_g (x : Q) : string :=
  if Qeq_bool x 0 then "0"
  else
    let sign := if Qle_bool 0 x then "" else "-" in
    let a := Qabs x in
    let k0 := floor_log10 a in
    let m0 := round_half_even (a * 10 ^ (5 - k0)) in
    let '(m, k) := if (m0 =? 1000000)%Z then (100000%Z, (k0 + 1)%Z)
                   else (m0, k0) in
    let ds := digits m in
    if (k <? -4)%Z || (6 <=? k)%Z then
      let e := digits (Z.abs k) in
      let e := if (Z.abs k <? 10)%Z then "0" +:+ e else e in
      sign +:+ with_fraction (String.substring 0 1 ds) (String.substring 1 5 ds)
           +:+ "e" +:+ (if (k <? 0)%Z then "-" else "+") +:+ e
    else if (0 <=? k)%Z then
      let n := Z.to_nat (k + 1) in
      sign +:+ with_fraction (String.substring 0 n ds)
                             (String.substring n (6 - n) ds)
    else
      sign +:+ with_fraction "0" (zeros (Z.to_nat (- k - 1)) +:+ ds).

#[global] Instance python : Python :=
  {| fmt_g := percent_g; fmt_d := percent_d; py_float := float; py_int := int |}.

End Builtins.

(** ** Stub transports *)

(** [s[len(p):]] when [s] starts with [p]. *)
Fixpoint strip_prefix (p s : string) : option string :=
  match p, s with
  | EmptyString, _ => Some s
  | String a p', String b s' => if Ascii.eqb a b then strip_prefix p' s' else None
  | String _ _, EmptyString => None
  end.

(** The argument of the last [CURRent ...] command written to [address]. *)
Definition last_commanded (address : string) (tr : list event) : option string :=
  fold_left (fun found e =>
    match e with
    | Write a command =>
        if String.eqb a address then
          match strip_prefix "CURRent " command with
          | Some argument => Some argument
          | None => found
          end
        else found
    | _ => found
    end) tr None.

Fixpoint upper_e (s : string) : string :=
  match s with
  | String c rest => String (if Ascii.eqb c "e" then "E"%char else c) (upper_e rest)
  | EmptyString => EmptyString
  end.

(** The commanded current as a reading: the exponent marker in upper case,
    and an exponent of zero when the text has none. *)
Definition echo_reply (argument : string) : string :=
  if contains_char "e" argument then upper_e argument else argument +:+ "E0".

(** A bench whose meter reports, as the voltage, the current last commanded
    to the source at GPIB::1; nobody asks to stop. *)
Definition echo_env : environment :=
  {| env_ask := fun tr _ _ =>
       match last_commanded "GPIB::1" tr with
       | Some argument => echo_reply argument
       | None => "0E0"
       end;
     env_values := fun _ _ _ => [PyNum 0; PyStr "No error"];
     env_read := fun _ _ => "";
     env_time := fun _ => 0;
     env_should_stop := fun _ => false |}.

Definition quoted (s : string) : string :=
  String (ascii_of_nat 34) (s +:+ String (ascii_of_nat 34) EmptyString).

(** The number of [values] queries made so far. *)
Fixpoint count_values (tr : list event) : nat :=
  match tr with
  | AskValues _ _ _ :: rest => S (count_values rest)
  | _ :: rest => count_values rest
  | [] => O
  end.

(** A source that answers every error query with the same error, each
    answer taking 11 seconds. *)
Definition stuck_env : environment :=
  {| env_ask := fun _ _ _ => "";
     env_values := fun _ _ _ => [PyNum (-113); PyStr (quoted "Undefined header")];
     env_read := fun _ _ => "";
     env_time := fun tr => 11 * inject_Z (Z.of_nat (count_values tr));
     env_should_stop := fun _ => false |}.

(** ** Reading a trace *)



(** The queries made, in order. *)
Fixpoint queries (tr : list event) : list string :=
  match tr with
  | Ask _ command _ :: rest => command :: queries rest
  | _ :: rest => queries rest
  | [] => []
  end.

(** The auto-range flag of a source after it received [messages]: a message
    is a list of commands separated by semicolons, executed in order; the
    flag is unknown until a command sets it. *)
Definition auto_range_command (flag : option bool) (command : string)
    : option bool :=
  if String.eqb command "CURRent:RANGe:AUTO 1" then Some true
  else if String.eqb command "CURRent:RANGe:AUTO 0" then Some false
  else flag.

Definition auto_range (messages : list string) : option bool :=
  fold_left (fun flag message =>
    fold_left auto_range_command (split ";" message) flag) messages None.

(** [v] occurs in the array [w], up to equality of rationals. *)
Definition occurs (v : Q) (w : list Q) : Prop := exists x, In x w /\ x == v.

Definition occursb (v : Q) (w : list Q) : bool := existsb (Qeq_bool v) w.

(** For every positive value present, its negation is present. *)
Definition symmetric (w : list Q) : Prop :=
  forall v, 0 < v -> occurs v w -> occurs (- v) w.

Definition bench : IV.self :=
  {| IV.current_range := 1; IV.current_step := 0.5; IV.delay := 10;
     IV.meter := Some (Keithley2182.init "GPIB::25");
     IV.source := Some (Keithley6220.init "GPIB::1") |}.

(** The number of time-out warnings in a trace. *)
Fixpoint timeouts (tr : list event) : nat :=
  match tr with
  | Log "warning" "Timed out for Keithley 2400 error retrieval." :: rest =>
      S (timeouts rest)
  | _ :: rest => timeouts rest
  | [] => O
  end.



(** A source whose first [n] answers to the error query report error -113
    and whose later answers report no error. *)
Definition flaky_env (n : nat) : environment :=
  {| env_ask := fun _ _ _ => "";
     env_values := fun tr _ _ =>
       if (count_values tr <? n)%nat
       then [PyNum (-113); PyStr (quoted "Undefined header")]
       else [PyNum 0; PyStr (quoted "No error")];
     env_read := fun _ _ => "";
     env_time := fun _ => 0;
     env_should_stop := fun _ => false |}.

(** A source that answers the error query with nothing and whose pending
    output reads [answer]. *)
Definition short_answer_env (answer : string) : environment :=
  {| env_ask := fun _ _ _ => "";
     env_values := fun _ _ _ => [];
     env_read := fun _ _ => answer;
     env_time := fun _ => 0;
     env_should_stop := fun _ => false |}.

(** The lines logged at level [info]. *)
Fixpoint info_lines (tr : list event) : list string :=
  match tr with
  | Log level message :: rest =>
      if String.eqb level "info" then message :: info_lines rest
      else info_lines rest
  | _ :: rest => info_lines rest
  | [] => []
  end.

(** No two consecutive values of [w] are further apart than [step]. *)
Definition smooth (step : Q) (w : list Q) : Prop :=
  forall (i : nat) (a b : Q),
    nth_error w i = Some a -> nth_error w (S i) = Some b ->
    Qabs (b - a) <= step.

(** The commands written, each with the address it went to, in order. *)
Fixpoint commands (tr : list event) : list (string * string) :=
  match tr with
  | Write address command :: rest => (address, command) :: commands rest
  | _ :: rest => commands rest
  | [] => []
  end.

(** * Properties *)

(** ** Appending the empty string *)

Lemma append_empty_r (s : string) : s +:+ "" = s.
Proof.
  induction s as [|c rest IH]; [reflexivity|].
  change (String c rest +:+ "") with (String c (rest +:+ "")).
  rewrite IH. reflexivity.
Qed.

(** ** Rationals, ceilings and arrays *)

Lemma Zlt_ceiling (i : Z) (q : Q) : (i < Qceiling q)%Z <-> inject_Z i < q.
Proof.
  split; intros Hi.
  - apply Qle_lt_trans with (inject_Z (Qceiling q - 1)).
    + rewrite <- Zle_Qle. lia.
    + apply Qceiling_lt.
  - rewrite Zlt_Qlt. eapply Qlt_le_trans; [exact Hi | apply Qle_ceiling].
Qed.

Lemma Qlt_div_iff (x y c : Q) : 0 < c -> (x < y / c <-> x * c < y).
Proof.
  intros Hc. split; intros Hx.
  - apply (Qmult_lt_r _ _ c Hc) in Hx.
    assert (E : y / c * c == y) by (field; lra).
    rewrite E in Hx. exact Hx.
  - apply Qlt_shift_div_l; assumption.
Qed.

Lemma occurs_app (v : Q) (l1 l2 : list Q) :
  occurs v (l1 ++ l2) <-> occurs v l1 \/ occurs v l2.
Proof.
  unfold occurs. split.
  - intros (x & Hin & Hx). apply in_app_or in Hin as [Hin | Hin]; eauto.
  - intros [(x & Hin & Hx) | (x & Hin & Hx)]; exists x; split; auto;
      apply in_or_app; auto.
Qed.

Lemma occurs_single (v x : Q) : occurs v [x] <-> x == v.
Proof.
  unfold occurs. split.
  - intros (y & [<- | []] & Hy). exact Hy.
  - intros Hx. exists x. split; [left; reflexivity | exact Hx].
Qed.

Lemma occursb_spec (v : Q) (w : list Q) : occursb v w = true <-> occurs v w.
Proof.
  unfold occursb, occurs. rewrite existsb_exists. split.
  - intros (x & Hin & Hx). exists x. split; [exact Hin|].
    symmetry. apply Qeq_bool_iff. exact Hx.
  - intros (x & Hin & Hx). exists x. split; [exact Hin|].
    apply Qeq_bool_iff. symmetry. exact Hx.
Qed.

(** The elements of [np.arange(a, b, c)] for a positive number of steps of
    size [c]. *)
Lemma arange_occurs (a b c : Q) (l : list Q) (v : Q) :
  np.arange a b c = Ok l ->
  occurs v l <->
  exists i : Z, (0 <= i)%Z /\ inject_Z i < (b - a) / c /\ v == a + inject_Z i * c.
Proof.
  unfold np.arange. destruct (Qeq_bool c 0); [discriminate|].
  intros [= <-]. unfold occurs, np.arange_len. split.
  - intros (x & Hin & Hx). apply in_map_iff in Hin as (k & <- & Hk).
    apply in_seq in Hk. exists (Z.of_nat k). split; [lia|]. split.
    + apply Zlt_ceiling. lia.
    + symmetry. exact Hx.
  - intros (i & Hi & Hlt & Hv). apply Zlt_ceiling in Hlt.
    exists (a + inject_Z i * c). split; [|symmetry; exact Hv].
    apply in_map_iff. exists (Z.to_nat i). split.
    + rewrite Z2Nat.id by lia. reflexivity.
    + apply in_seq. lia.
Qed.

Lemma arange_length (a b c : Q) (l : list Q) :
  np.arange a b c = Ok l -> length l = Z.to_nat (Qceiling ((b - a) / c)).
Proof.
  unfold np.arange. destruct (Qeq_bool c 0); [discriminate|].
  intros [= <-]. rewrite length_map, length_seq. reflexivity.
Qed.

Lemma arange_ok (a b c : Q) :
  ~ c == 0 -> exists l, np.arange a b c = Ok l.
Proof.
  intros Hc. unfold np.arange.
  destruct (Qeq_bool c 0) eqn:E; [|eauto].
  apply Qeq_bool_iff in E. contradiction.
Qed.

(** With a positive step the array holds the values [a + i * c] that lie
    strictly before [b]; with a negative step, strictly after [b]. *)
Lemma arange_occurs_up (a b c : Q) (l : list Q) (v : Q) :
  0 < c -> np.arange a b c = Ok l ->
  occurs v l <->
  exists i : Z, (0 <= i)%Z /\ a + inject_Z i * c < b /\ v == a + inject_Z i * c.
Proof.
  intros Hc Hl. rewrite (arange_occurs _ _ _ _ v Hl).
  split; intros (i & Hi & Hlt & Hv); exists i; (split; [exact Hi|]);
    (split; [|exact Hv]).
  - apply Qlt_div_iff in Hlt; [lra | exact Hc].
  - apply Qlt_div_iff; [exact Hc | lra].
Qed.

Lemma arange_occurs_down (a b c : Q) (l : list Q) (v : Q) :
  c < 0 -> np.arange a b c = Ok l ->
  occurs v l <->
  exists i : Z, (0 <= i)%Z /\ b < a + inject_Z i * c /\ v == a + inject_Z i * c.
Proof.
  intros Hc Hl. rewrite (arange_occurs _ _ _ _ v Hl).
  assert (E : (b - a) / c == (a - b) / - c) by (field; lra).
  split; intros (i & Hi & Hlt & Hv); exists i; (split; [exact Hi|]);
    (split; [|exact Hv]).
  - rewrite E in Hlt. apply Qlt_div_iff in Hlt; lra.
  - rewrite E. apply Qlt_div_iff; lra.
Qed.

(** The values of the waveform: the rising part, the falling part, the
    return from the negative peak, and the final zero. *)
Lemma CurrentValues_occurs (rangeA stepA : Q) (w : list Q) (v : Q) :
  0 < stepA -> CurrentValues rangeA stepA = Ok w ->
  occurs v w <->
  (exists i : Z, (0 <= i)%Z /\ inject_Z i * stepA < rangeA
                 /\ v == inject_Z i * stepA)
  \/ (exists i : Z, (0 <= i)%Z /\ - rangeA < rangeA - inject_Z i * stepA
                    /\ v == rangeA - inject_Z i * stepA)
  \/ (exists i : Z, (0 <= i)%Z /\ - rangeA + inject_Z i * stepA < 0
                    /\ v == - rangeA + inject_Z i * stepA)
  \/ v == 0.
Proof.
  intros Hs. unfold CurrentValues.
  destruct (np.arange 0 rangeA stepA) as [up|] eqn:Hup; [|discriminate].
  destruct (np.arange rangeA (- rangeA) (- stepA)) as [down|] eqn:Hdown;
    [|discriminate].
  destruct (np.arange (- rangeA) 0 stepA) as [back|] eqn:Hback; [|discriminate].
  intros [= <-]. unfold np.append, np.hstack. simpl concat.
  rewrite app_nil_r, !occurs_app, occurs_single.
  rewrite (arange_occurs_up _ _ _ _ v Hs Hup).
  assert (Hneg : - stepA < 0) by lra.
  rewrite (arange_occurs_down _ _ _ _ v Hneg Hdown).
  rewrite (arange_occurs_up _ _ _ _ v Hs Hback).
  split.
  - intros [[(i & Hi & Hlt & Hv) | [(i & Hi & Hlt & Hv) | (i & Hi & Hlt & Hv)]] | Hv].
    + left. exists i. repeat split; [exact Hi | lra | lra].
    + right; left. exists i. repeat split; [exact Hi | lra | lra].
    + right; right; left. exists i. repeat split; [exact Hi | lra | lra].
    + right; right; right. lra.
  - intros [(i & Hi & Hlt & Hv) | [(i & Hi & Hlt & Hv) | [(i & Hi & Hlt & Hv) | Hv]]].
    + left; left. exists i. repeat split; [exact Hi | lra | lra].
    + left; right; left. exists i. repeat split; [exact Hi | lra | lra].
    + left; right; right. exists i. repeat split; [exact Hi | lra | lra].
    + right. lra.
Qed.

Lemma inject_Z_nonneg (i : Z) : (0 <= i)%Z -> 0 <= inject_Z i.
Proof. intros Hi. change 0 with (inject_Z 0). rewrite <- Zle_Qle. exact Hi. Qed.

(** The waveform is symmetric exactly when the step divides the range. *)
Lemma CurrentValues_symmetric (rangeA stepA : Q) (w : list Q) :
  0 < stepA -> stepA <= rangeA -> CurrentValues rangeA stepA = Ok w ->
  symmetric w <-> exists n : Z, rangeA == inject_Z n * stepA.
Proof.
  intros Hs Hr Hw. unfold symmetric. split.
  - intros Hsym. destruct (Qlt_le_dec stepA rangeA) as [Hlt | Hle].
    + assert (Hocc : occurs stepA w).
      { apply (CurrentValues_occurs _ _ _ _ Hs Hw). left. exists 1%Z.
        split; [lia|]. change (inject_Z 1) with 1. split; lra. }
      apply (Hsym _ Hs) in Hocc.
      apply (CurrentValues_occurs _ _ _ _ Hs Hw) in Hocc
        as [(i & Hi & _ & Hv) | [(i & Hi & _ & Hv) | [(i & Hi & _ & Hv) | Hv]]].
      * apply inject_Z_nonneg in Hi. nra.
      * exists (i - 1)%Z. unfold Z.sub. rewrite inject_Z_plus, inject_Z_opp.
        change (inject_Z 1) with 1. lra.
      * exists (i + 1)%Z. rewrite inject_Z_plus.
        change (inject_Z 1) with 1. lra.
      * lra.
    + exists 1%Z. change (inject_Z 1) with 1. lra.
  - intros (n & Hn) v Hv Hocc.
    assert (Hn0 : (0 <= n)%Z).
    { destruct (Z_le_gt_dec 0 n) as [H0 | H0]; [exact H0|].
      assert (inject_Z n <= inject_Z 0) by (rewrite <- Zle_Qle; lia).
      change (inject_Z 0) with 0 in *. nra. }
    apply (CurrentValues_occurs _ _ _ _ Hs Hw).
    apply (CurrentValues_occurs _ _ _ _ Hs Hw) in Hocc
      as [(i & Hi & Hlt & Hvi) | [(i & Hi & Hlt & Hvi) | [(i & Hi & Hlt & Hvi) | Hvi]]].
    + right; left. exists (n + i)%Z. split; [lia|].
      rewrite inject_Z_plus. split; lra.
    + right; right; left. exists i. split; [exact Hi|]. split; lra.
    + lra.
    + lra.
Qed.

Lemma CurrentValues_ok (rangeA stepA : Q) :
  0 < stepA -> exists w, CurrentValues rangeA stepA = Ok w.
Proof.
  intros Hs. unfold CurrentValues.
  destruct (arange_ok 0 rangeA stepA) as (up & ->); [lra|].
  destruct (arange_ok rangeA (- rangeA) (- stepA)) as (down & ->); [lra|].
  destruct (arange_ok (- rangeA) 0 stepA) as (back & ->); [lra|].
  eauto.
Qed.

Lemma CurrentValues_length (rangeA stepA : Q) (w : list Q) :
  0 < stepA -> stepA <= rangeA -> CurrentValues rangeA stepA = Ok w ->
  Z.of_nat (length w)
  = (2 * Qceiling (rangeA / stepA) + Qceiling (2 * rangeA / stepA) + 1)%Z.
Proof.
  intros Hs Hr. unfold CurrentValues.
  destruct (np.arange 0 rangeA stepA) as [up|] eqn:Hup; [|discriminate].
  destruct (np.arange rangeA (- rangeA) (- stepA)) as [down|] eqn:Hdown;
    [|discriminate].
  destruct (np.arange (- rangeA) 0 stepA) as [back|] eqn:Hback; [|discriminate].
  intros [= <-]. unfold np.append, np.hstack. simpl concat.
  rewrite app_nil_r, !length_app. simpl length.
  rewrite (arange_length _ _ _ _ Hup), (arange_length _ _ _ _ Hdown),
    (arange_length _ _ _ _ Hback).
  assert (E1 : (rangeA - 0) / stepA == rangeA / stepA) by (field; lra).
  assert (E2 : (- rangeA - rangeA) / - stepA == 2 * rangeA / stepA)
    by (field; lra).
  assert (E3 : (0 - - rangeA) / stepA == rangeA / stepA) by (field; lra).
  rewrite E1, E2, E3.
  assert (H1 : (0 < Qceiling (rangeA / stepA))%Z).
  { apply Zlt_ceiling. apply Qlt_div_iff; [exact Hs|].
    change (inject_Z 0) with 0. lra. }
  assert (H2 : (0 < Qceiling (2 * rangeA / stepA))%Z).
  { apply Zlt_ceiling. apply Qlt_div_iff; [exact Hs|].
    change (inject_Z 0) with 0. lra. }
  lia.
Qed.

Lemma CurrentValues_first (rangeA stepA : Q) (w : list Q) :
  0 < stepA -> stepA <= rangeA -> CurrentValues rangeA stepA = Ok w ->
  exists first, hd_error w = Some first /\ first == 0.
Proof.
  intros Hs Hr. unfold CurrentValues.
  destruct (np.arange 0 rangeA stepA) as [up|] eqn:Hup; [|discriminate].
  destruct (np.arange rangeA (- rangeA) (- stepA)) as [down|]; [|discriminate].
  destruct (np.arange (- rangeA) 0 stepA) as [back|]; [|discriminate].
  intros [= <-]. unfold np.arange in Hup.
  destruct (Qeq_bool stepA 0); [discriminate|]. injection Hup as <-.
  unfold np.arange_len.
  assert (H1 : (0 < Qceiling ((rangeA - 0) / stepA))%Z).
  { apply Zlt_ceiling. apply Qlt_div_iff; [exact Hs|].
    change (inject_Z 0) with 0. lra. }
  destruct (Z.to_nat (Qceiling ((rangeA - 0) / stepA))) as [|n] eqn:En; [lia|].
  cbn [seq map hd_error List.app concat np.append np.hstack].
  eexists. split; [reflexivity|].
  change (inject_Z (Z.of_nat 0)) with 0. lra.
Qed.

Lemma CurrentValues_last (rangeA stepA : Q) (w : list Q) :
  CurrentValues rangeA stepA = Ok w -> List.last w 1 = 0.
Proof.
  unfold CurrentValues.
  destruct (np.arange 0 rangeA stepA) as [up|]; [|discriminate].
  destruct (np.arange rangeA (- rangeA) (- stepA)) as [down|]; [|discriminate].
  destruct (np.arange (- rangeA) 0 stepA) as [back|]; [|discriminate].
  intros [= <-]. unfold np.append. apply last_last.
Qed.

(** ** The waveform *)

(** On integers the range is a whole multiple of the step exactly when the
    step divides it. *)
Lemma multiple_divide (rangeA stepA : Z) :
  (exists n : Z, inject_Z rangeA == inject_Z n * inject_Z stepA)
  <-> (stepA | rangeA)%Z.
Proof.
  split; intros (n & Hn); exists n.
  - unfold Qeq in Hn. cbn in Hn. lia.
  - unfold Qeq. cbn. lia.
Qed.

(** C1, as amended.  For every pair with [0 < stepA <= rangeA] the waveform
    [CurrentValues(rangeA, stepA)] is produced, starts at 0 and ends at 0.
    For integers [0 < stepA <= rangeA < 2^31] its length is
    [2 * ceil(rangeA/stepA) + ceil(2*rangeA/stepA) + 1], and it is symmetric
    (with every positive value present its negation is present) exactly
    when the step divides the range. *)
Theorem CurrentValues_waveform :
  (forall rangeA stepA : Q,
     0 < stepA -> stepA <= rangeA ->
     exists w,
       CurrentValues rangeA stepA = Ok w
       /\ (exists first, hd_error w = Some first /\ first == 0)
       /\ List.last w 1 == 0)
  /\ (forall rangeA stepA : Z,
        (0 < stepA)%Z -> (stepA <= rangeA)%Z -> (rangeA < 2 ^ 31)%Z ->
        exists w,
          CurrentValues (inject_Z rangeA) (inject_Z stepA) = Ok w
          /\ Z.of_nat (length w)
             = (2 * Qceiling (inject_Z rangeA / inject_Z stepA)
                + Qceiling (2 * inject_Z rangeA / inject_Z stepA) + 1)%Z
          /\ (symmetric w <-> (stepA | rangeA)%Z)).
Proof.
  split.
  - intros rangeA stepA Hs Hr.
    destruct (CurrentValues_ok rangeA stepA Hs) as (w & Hw).
    exists w. split; [exact Hw|]. split.
    + exact (CurrentValues_first _ _ _ Hs Hr Hw).
    + rewrite (CurrentValues_last _ _ _ Hw). reflexivity.
  - intros rangeA stepA Hs Hr _.
    assert (Hs' : 0 < inject_Z stepA)
      by (change 0 with (inject_Z 0); rewrite <- Zlt_Qlt; exact Hs).
    assert (Hr' : inject_Z stepA <= inject_Z rangeA)
      by (rewrite <- Zle_Qle; exact Hr).
    destruct (CurrentValues_ok (inject_Z rangeA) _ Hs') as (w & Hw).
    exists w. split; [exact Hw|]. split.
    + exact (CurrentValues_length _ _ _ Hs' Hr' Hw).
    + rewrite (CurrentValues_symmetric _ _ _ Hs' Hr' Hw).
      apply multiple_divide.
Qed.

Lemma CurrentValues_waveform_witness :
  (exists w,
     CurrentValues 1 (1 # 2) = Ok w
     /\ (exists first, hd_error w = Some first /\ first == 0)
     /\ List.last w 1 == 0)
  /\ (exists w,
        CurrentValues (inject_Z 4) (inject_Z 2) = Ok w
        /\ Z.of_nat (length w)
           = (2 * Qceiling (inject_Z 4 / inject_Z 2)
              + Qceiling (2 * inject_Z 4 / inject_Z 2) + 1)%Z
        /\ (symmetric w <-> (2 | 4)%Z)).
Proof.
  split.
  - apply (proj1 CurrentValues_waveform 1 (1 # 2)); [reflexivity | discriminate].
  - apply (proj2 CurrentValues_waveform 4%Z 2%Z); [lia | lia | reflexivity].
Defined.

Lemma not_symmetric (v : Q) (w : list Q) :
  0 < v -> occursb v w = true -> occursb (- v) w = false -> ~ symmetric w.
Proof.
  intros Hv Hin Hout Hsym.
  apply occursb_spec in Hin. apply (Hsym v Hv) in Hin.
  apply occursb_spec in Hin. congruence.
Qed.

(** C1, as stated, fails at [rangeA = 3], [stepA = 2]: the waveform is
    [0, 2, 3, 1, -1, -3, -1, 0]; it holds 2 but not -2, and its length is 8,
    not [3 * ceil(3/2) + 1 = 7]. *)
Lemma CurrentValues_claimed_shape_fails :
  0 < 2 /\ 2 <= 3 /\
  exists w,
    CurrentValues 3 2 = Ok w
    /\ map Qred w = [0; 2; 3; 1; -1; -3; -1; 0]
    /\ ~ symmetric w
    /\ Z.of_nat (length w) <> (3 * Qceiling (3 / 2) + 1)%Z.
Proof.
  split; [reflexivity|]. split; [discriminate|].
  eexists. split; [reflexivity|]. split; [reflexivity|]. split.
  - apply (not_symmetric 2); reflexivity.
  - vm_compute. discriminate.
Qed.

(** ** Name resolution in [execute] *)

(** C3.  With the names the module binds, every call of [IV.execute] raises
    NameError on the bare name [current_range], in either copy of the
    script, whatever the parameters, the instruments and the history; the
    trace is unchanged, so no command was written and no record emitted.
    Were [current_range] bound, the bare name [current_step] would raise
    the same way. *)
Theorem execute_raises_NameError `{Python} (env : environment) (s : IV.self)
    (tr : list event) :
  IV.execute env IV.module_globals s tr
    = (Raise (NameError "current_range"), tr)
  /\ IV.execute env IV.module_globals_gui s tr
    = (Raise (NameError "current_range"), tr)
  /\ (forall v : pyval,
        IV.execute env (<["current_range" := v]> IV.module_globals) s tr
          = (Raise (NameError "current_step"), tr)
        /\ IV.execute env (<["current_range" := v]> IV.module_globals_gui) s tr
          = (Raise (NameError "current_step"), tr)).
Proof.
  split; [reflexivity|]. split; [reflexivity|].
  intros v. split; reflexivity.
Qed.

(** ** Shutdown *)

(** C4, what the code does.  [Keithley6220.shutdown] logs one line and
    writes the single command [SourceMeter]; [IV.shutdown] adds the line
    [Finished].  No current is commanded and [OUTPUT OFF] is not sent. *)
Theorem shutdown_writes_SourceMeter `{Python} (src : Keithley6220.self)
    (cr cs d : Q) (mtr : option Keithley2182.self) (tr : list event) :
  Keithley6220.shutdown src tr
    = (Ok tt,
       tr ++ [Log "info" ("Shutting down " +:+ Keithley6220.name src +:+ ".");
              Write (Keithley6220.adapter src) "SourceMeter"])
  /\ IV.shutdown {| IV.current_range := cr; IV.current_step := cs;
                    IV.delay := d; IV.meter := mtr; IV.source := Some src |} tr
    = (Ok tt,
       tr ++ [Log "info" ("Shutting down " +:+ Keithley6220.name src +:+ ".");
              Write (Keithley6220.adapter src) "SourceMeter";
              Log "info" "Finished"]).
Proof.
  split.
  - unfold Keithley6220.shutdown, mbind, M_bind, log, adapter_write, tell.
    cbn. rewrite <- app_assoc. reflexivity.
  - unfold IV.shutdown, Keithley6220.shutdown, mbind, M_bind, lift, log,
      adapter_write, tell. cbn. rewrite <- !app_assoc. reflexivity.
Qed.

(** ** Channel selection *)

(** C7, as amended.  For a member of [0, 1, 2], [set_channel] records the
    channel and writes the command [:SENSE:CHANNEL n]; for any other number
    it prints [incorrect channel number], writes nothing, leaves the channel
    as it was and returns normally. *)
Theorem set_channel_cases (s : Keithley2182.self) (channel_number : Z)
    (tr : list event) :
  Keithley2182.set_channel s channel_number tr
  = if ((channel_number =? 0) || (channel_number =? 1)
        || (channel_number =? 2))%Z
    then (Ok (Keithley2182.with_channel s channel_number),
          tr ++ [Write (Keithley2182.adapter s)
                   (":SENSE:CHANNEL " +:+ Builtins.digits channel_number)])
    else (Ok s, tr ++ [Print "incorrect channel number"]).
Proof.
  unfold Keithley2182.set_channel.
  destruct (Z.eqb_spec channel_number 1) as [-> | H1]; [reflexivity|].
  destruct (Z.eqb_spec channel_number 2) as [-> | H2]; [reflexivity|].
  destruct (Z.eqb_spec channel_number 0) as [-> | H0]; reflexivity.
Qed.

(** C7, as stated, fails at channel 3: the call returns normally, having
    printed a line and written nothing. *)
Lemma set_channel_3_returns :
  Keithley2182.set_channel (Keithley2182.init "GPIB::25") 3 []
    = (Ok (Keithley2182.init "GPIB::25"), [Print "incorrect channel number"])
  /\ ~ (exists e, fst (Keithley2182.set_channel
                         (Keithley2182.init "GPIB::25") 3 []) = Raise e).
Proof.
  split; [reflexivity|]. intros (e & He). discriminate He.
Qed.

(** ** Ramping *)

Lemma ramp_without_source_current `{Python} (s : Keithley6220.self)
    (target_current : Q) (steps : Z) (pause : Q) (tr : list event) :
  Keithley6220.dict s !! "source_current" = None ->
  Keithley6220.ramp_to_current s target_current steps pause tr
    = (Raise (AttributeError "source_current"), tr).
Proof.
  intros Hd. unfold Keithley6220.ramp_to_current, Keithley6220.getattr.
  rewrite Hd. reflexivity.
Qed.

(** C8, what the code does.  On a source object as the constructor leaves
    it, [ramp_to_current] raises AttributeError on [source_current] for
    every target, number of steps and pause, and writes nothing. *)
Theorem ramp_to_current_raises `{Python} (adapter : string)
    (target_current : Q) (steps : Z) (pause : Q) (tr : list event) :
  Keithley6220.ramp_to_current (Keithley6220.init adapter)
      target_current steps pause tr
    = (Raise (AttributeError "source_current"), tr).
Proof. apply ramp_without_source_current. reflexivity. Qed.

(** The source object that [IV.startup] builds has no [source_current]
    either: the two assignments of lines 35-36 create other attributes. *)
Example ramp_after_startup :
  match IV.startup bench [] with
  | (Ok s, tr) =>
      match IV.source s with
      | Some src =>
          Keithley6220.ramp_to_current src 0 30 20e-3 tr
            = (Raise (AttributeError "source_current"), tr)
      | None => False
      end
  | _ => False
  end.
Proof. vm_compute. reflexivity. Qed.

(** When the caller has assigned [source_current = 0] on the object, as the
    class docstring does, the ramp gets as far as its first assignment to
    [current], which raises TypeError: nothing is written. *)
Example ramp_with_source_current_assigned :
  let src := Keithley6220.setattr (Keithley6220.init "GPIB::1")
               "source_current" (PyNum 0) in
  Keithley6220.ramp_to_current src 5e-3 30 20e-3 [] = (Raise TypeError, []).
Proof. vm_compute. reflexivity. Qed.

(** ** Setting the range of the source *)

Lemma split_without_separator (sep : ascii) (s : string) :
  contains_char sep s = false -> split sep s = [s].
Proof.
  induction s as [|c rest IH]; [reflexivity|].
  cbn [contains_char split]. rewrite Ascii.eqb_sym.
  destruct (Ascii.eqb sep c); [discriminate|].
  cbn [orb]. intros Hrest. rewrite (IH Hrest). reflexivity.
Qed.

(** C9.  Assigning any value to [current_range] writes one message made of
    two commands: first [CURRent:RANGe:AUTO 0], then [CURRent:RANGe] with
    the value clamped to the declared bounds.  After that message the
    auto-range flag of the source is off, whatever was sent before, and in
    particular when [enable_auto_range()] was called just before.  (The
    text of a number holds no semicolon.) *)
Theorem current_range_turns_auto_range_off `{Python}
    (s : Keithley6220.self) (value : Q) (tr : list event) :
  let text := fmt_g (Instrument.truncated_range value (-105e-3, 105e-3)) in
  let message := "CURRent:RANGe:AUTO 0;CURRent:RANGe " +:+ text in
  contains_char ";" text = false ->
  Keithley6220.set_current_range s value tr
    = (Ok tt, tr ++ [Write (Keithley6220.adapter s) message])
  /\ (Keithley6220.enable_auto_range s;;
      Keithley6220.set_current_range s value) tr
    = (Ok tt, tr ++ [Write (Keithley6220.adapter s) "CURRent:RANGe:AUTO 1";
                     Write (Keithley6220.adapter s) message])
  /\ split ";" message = ["CURRent:RANGe:AUTO 0"; "CURRent:RANGe " +:+ text]
  /\ (forall earlier : list string,
        auto_range (earlier ++ [message]) = Some false).
Proof.
  intros text message Htext.
  assert (Hsplit : split ";" message
                   = ["CURRent:RANGe:AUTO 0"; "CURRent:RANGe " +:+ text]).
  { unfold message. cbv beta iota fix delta [String.append].
    cbn [split Ascii.eqb Bool.eqb]. rewrite (split_without_separator _ _ Htext).
    reflexivity. }
  assert (Hpercent : percent "CURRent:RANGe:AUTO 0;CURRent:RANGe %g" [text]
                     = message).
  { unfold message. cbn [percent]. rewrite append_empty_r.
    reflexivity. }
  split; [|split].
  - unfold Keithley6220.set_current_range, Instrument.control_set,
      adapter_write, tell. fold text. rewrite Hpercent. reflexivity.
  - unfold Keithley6220.enable_auto_range, Keithley6220.set_current_range,
      Instrument.control_set, mbind, M_bind, adapter_write, tell.
    fold text. rewrite Hpercent, <- app_assoc. reflexivity.
  - split; [exact Hsplit|]. intros earlier. unfold auto_range.
    rewrite fold_left_app. cbn [fold_left]. rewrite Hsplit. reflexivity.
Qed.

Lemma current_range_turns_auto_range_off_witness :
  let message := "CURRent:RANGe:AUTO 0;CURRent:RANGe 0.105" in
  contains_char ";" "0.105" = false
  /\ (Keithley6220.enable_auto_range (Keithley6220.init "GPIB::1");;
      Keithley6220.set_current_range (Keithley6220.init "GPIB::1") 0.5) []
     = (Ok tt, [Write "GPIB::1" "CURRent:RANGe:AUTO 1";
                Write "GPIB::1" message])
  /\ auto_range ["CURRent:RANGe:AUTO 1"; message] = Some false.
Proof.
  intros message.
  pose proof (current_range_turns_auto_range_off
                (Keithley6220.init "GPIB::1") 0.5 [] eq_refl)
    as (_ & Hboth & _ & Hflag).
  split; [reflexivity|]. split.
  - exact Hboth.
  - exact (Hflag ["CURRent:RANGe:AUTO 1"]).
Defined.

(** ** Measuring a voltage *)

(** The parse of one reply raises nothing but IndexError, ValueError and
    OverflowError. *)
Lemma parse_reply_errors `{Python} (reply : string) (e : exn) :
  Keithley2182.parse_reply reply = Raise e ->
  e = IndexError \/ e = ValueError \/ e = OverflowError.
Proof.
  unfold Keithley2182.parse_reply.
  destruct (nth_error (split "E" reply) 0); [|intros [= <-]; auto].
  destruct (py_float s); [|intros [= <-]; auto].
  destruct (nth_error (split "E" reply) 1); [|intros [= <-]; auto].
  destruct (py_int s0) as [n|]; [|intros [= <-]; auto].
  destruct (309 <=? n)%Z; [intros [= <-]; auto | discriminate].
Qed.

(** The first round of the loop stops at the lookup of [self.query]. *)
Lemma measure_rounds_query `{Python} (env : environment)
    (s : Keithley2182.self) (rounds : nat) (result : Q) (tr : list event) :
  Keithley2182.measure_rounds env s (S rounds) result tr
    = (Raise (AttributeError "query"), tr).
Proof. reflexivity. Qed.

(** C10.  [measure_voltage(0)] writes the trigger command, makes no query
    and raises ZeroDivisionError on [0 / 0]; with [iterations >= 1] the
    division never raises: whatever the call ends with, it is not
    ZeroDivisionError. *)
Theorem measure_voltage_zero_iterations `{Python} (env : environment)
    (s : Keithley2182.self) (tr : list event) :
  Keithley2182.measure_voltage env s 0 tr
    = (Raise ZeroDivisionError,
       tr ++ [Write (Keithley2182.adapter s) "INITIATE:CONT OFF"])
  /\ queries (snd (Keithley2182.measure_voltage env s 0 [])) = []
  /\ (forall iterations : Z, (1 <= iterations)%Z ->
        fst (Keithley2182.measure_voltage env s iterations tr)
          <> Raise ZeroDivisionError).
Proof.
  split; [reflexivity|]. split; [reflexivity|].
  intros iterations Hit. unfold Keithley2182.measure_voltage.
  unfold mbind at 1 2, M_bind at 1 2, adapter_write, tell.
  destruct (Z.to_nat iterations) as [|rounds] eqn:Hrounds; [lia|].
  rewrite measure_rounds_query. discriminate.
Qed.

Lemma measure_voltage_zero_iterations_witness :
  (1 <= 1)%Z
  /\ Keithley2182.measure_voltage echo_env (Keithley2182.init "GPIB::25") 0 []
     = (Raise ZeroDivisionError, [Write "GPIB::25" "INITIATE:CONT OFF"])
  /\ fst (Keithley2182.measure_voltage echo_env
            (Keithley2182.init "GPIB::25") 1 [])
     <> Raise ZeroDivisionError.
Proof.
  pose proof (measure_voltage_zero_iterations echo_env
                (Keithley2182.init "GPIB::25") []) as (Hzero & _ & Hguard).
  split; [lia|]. split.
  - exact Hzero.
  - apply Hguard. lia.
Defined.

(** C6, as amended.  Given that [float] reads 1.5 and [int] reads -3, the
    reply [1.5E-3] parses to 0.0015.  A reply without the marker [E] never
    parses: it raises ValueError when its text is no float literal and
    IndexError otherwise.  No ProtocolError exists. *)
Theorem parse_reply_cases `{Python} :
  (forall m : Q,
      py_float "1.5" = Some m -> m == 1.5 -> py_int "-3" = Some (-3)%Z ->
      exists q, Keithley2182.parse_reply "1.5E-3" = Ok q /\ q == 0.0015)
  /\ (forall reply : string,
        contains_char "E" reply = false ->
        Keithley2182.parse_reply reply
        = match py_float reply with
          | Some _ => Raise IndexError
          | None => Raise ValueError
          end).
Proof.
  split.
  - intros m Hfloat Hm Hint. unfold Keithley2182.parse_reply.
    cbn [split Ascii.eqb Bool.eqb nth_error]. rewrite Hfloat, Hint.
    eexists. split; [reflexivity|]. rewrite Hm. vm_compute. reflexivity.
  - intros reply Hreply. unfold Keithley2182.parse_reply.
    rewrite (split_without_separator _ _ Hreply). cbn [nth_error].
    destruct (py_float reply); reflexivity.
Qed.

Lemma parse_reply_cases_witness :
  Builtins.float "1.5" = Some 1.5 /\ 1.5 == 1.5
  /\ Builtins.int "-3" = Some (-3)%Z
  /\ (exists q, Keithley2182.parse_reply "1.5E-3" = Ok q /\ q == 0.0015)
  /\ contains_char "E" "1.5" = false
  /\ Keithley2182.parse_reply "1.5" = Raise IndexError.
Proof.
  pose proof (@parse_reply_cases Builtins.python) as (Hsci & Hno).
  split; [reflexivity|]. split; [reflexivity|]. split; [reflexivity|].
  split; [|split].
  - apply (Hsci 1.5); reflexivity.
  - reflexivity.
  - apply (Hno "1.5"). reflexivity.
Defined.

(** C6, as stated, fails on the reply [1.5]: the parse raises IndexError,
    whose class is not ProtocolError. *)
Lemma parse_reply_raises_IndexError :
  contains_char "E" "1.5" = false
  /\ Keithley2182.parse_reply "1.5" = Raise IndexError
  /\ exn_class IndexError <> "ProtocolError".
Proof. split; [reflexivity|]. split; [reflexivity | discriminate]. Qed.

(** ** The error loop of the source *)

Lemma count_values_app (tr1 tr2 : list event) :
  count_values (tr1 ++ tr2) = (count_values tr1 + count_values tr2)%nat.
Proof.
  induction tr1 as [|e tr1 IH]; [reflexivity|].
  destruct e; cbn; rewrite ?IH; reflexivity.
Qed.

Lemma stuck_error `{Python} (s : Keithley6220.self) (tr : list event) :
  Keithley6220.error stuck_env s tr
  = (Ok (PyNum (-113), "Undefined header"),
     tr ++ [AskValues (Keithley6220.adapter s) ":system:error?"
              [PyNum (-113); PyStr (quoted "Undefined header")]]).
Proof. reflexivity. Qed.

(** With the stuck source every round of the loop takes 11 seconds, logs
    the time-out warning and goes on: after any number of rounds the loop
    is still running. *)
Lemma stuck_loop `{Python} (s : Keithley6220.self) (fuel : nat) :
  forall tr : list event,
  exists tr',
    Keithley6220.check_errors_loop stuck_env fuel s (PyNum (-113))
      "Undefined header" tr = (Ok None, tr ++ tr')
    /\ timeouts tr' = fuel.
Proof.
  induction fuel as [|fuel IH]; intros tr.
  - exists []. rewrite app_nil_r. split; reflexivity.
  - cbn [Keithley6220.check_errors_loop Keithley6220.nonzero].
    change (negb (Qeq_bool (-113) 0)) with true. cbv iota.
    unfold mbind at 1 2 3 4, M_bind at 1 2 3 4, time_time at 1, lift,
      Keithley6220.error_message, log at 1, tell.
    rewrite stuck_error.
    unfold mbind at 1 2, M_bind at 1 2, time_time.
    cbn [env_time stuck_env].
    rewrite !count_values_app. cbn [count_values].
    replace (count_values tr + 0 + 1)%nat with (S (count_values tr)) by lia.
    rewrite Nat2Z.inj_succ. unfold Z.succ. rewrite inject_Z_plus.
    change (inject_Z 1) with 1.
    destruct (Qlt_le_dec _ _) as [Hlate | Hearly]; [|lra].
    unfold log, tell.
    match goal with
    | |- context [Keithley6220.check_errors_loop _ _ _ _ _ ?t] =>
        destruct (IH t) as (tr' & Hloop & Hcount); rewrite Hloop
    end.
    eexists. rewrite <- !app_assoc. split; [reflexivity|].
    cbn. rewrite Hcount. reflexivity.
Qed.

(** C5, what the code does.  Against a source that keeps reporting error
    -113 and takes 11 seconds per answer, [check_errors] is still in its
    loop after any number of rounds, having logged one time-out warning per
    round: the time-out does not end the loop. *)
Theorem check_errors_never_leaves `{Python} (fuel : nat) :
  exists tr,
    Keithley6220.check_errors stuck_env fuel (Keithley6220.init "GPIB::1") []
      = (Ok None, tr)
    /\ timeouts tr = fuel.
Proof.
  unfold Keithley6220.check_errors, mbind, M_bind. rewrite stuck_error.
  destruct (stuck_loop (Keithley6220.init "GPIB::1") fuel
              ([] ++ [AskValues "GPIB::1" ":system:error?"
                        [PyNum (-113); PyStr (quoted "Undefined header")]]))
    as (tr' & Hloop & Hcount).
  eexists. split; [exact Hloop|]. exact Hcount.
Qed.

(** When the first answer already reports code 0 the loop is not entered. *)
Lemma check_errors_no_error `{Python} (env : environment)
    (s : Keithley6220.self) (fuel : nat) (tr : list event) (m : string) :
  env_values env tr (Keithley6220.adapter s) ":system:error?"
    = [PyNum 0; PyStr m] ->
  Keithley6220.check_errors env fuel s tr
  = (Ok (Some tt),
     tr ++ [AskValues (Keithley6220.adapter s) ":system:error?"
              [PyNum 0; PyStr m]]).
Proof.
  intros Hv. unfold Keithley6220.check_errors, Keithley6220.error, mbind,
    M_bind, adapter_values. rewrite Hv. cbn. destruct fuel; reflexivity.
Qed.

(** ** What a computation appends to the trace *)

Section Appends.
Context (P : event -> Prop).






End Appends.









(** ** The records of a sweep *)








(** ** The sweep of [execute] *)




(** * Further properties of the code *)

(** ** More on the waveform *)

(** The values [start + i * step] taken exactly never leave
    [-rangeA, rangeA]. *)
Lemma exact_within_range (rangeA stepA : Q) (w : list Q) :
  0 < stepA -> 0 <= rangeA -> CurrentValues rangeA stepA = Ok w ->
  (forall v, occurs v w -> - rangeA <= v /\ v <= rangeA)
  /\ (0 < rangeA -> occurs rangeA w /\ occurs (- rangeA) w).
Proof.
  intros Hs Hr Hw. split.
  - intros v Hv. apply (CurrentValues_occurs _ _ _ _ Hs Hw) in Hv
      as [(i & Hi & Hlt & Hv) | [(i & Hi & Hlt & Hv) | [(i & Hi & Hlt & Hv) | Hv]]];
      try apply inject_Z_nonneg in Hi; split; nra.
  - intros Hpos. split; apply (CurrentValues_occurs _ _ _ _ Hs Hw).
    + right; left. exists 0%Z. split; [lia|].
      change (inject_Z 0) with 0. split; lra.
    + right; right; left. exists 0%Z. split; [lia|].
      change (inject_Z 0) with 0. split; lra.
Qed.

Lemma inject_Z_pos (i : Z) : (0 < i)%Z -> 0 < inject_Z i.
Proof. intros Hi. change 0 with (inject_Z 0). rewrite <- Zlt_Qlt. exact Hi. Qed.

(** X1.  For integers [0 < stepA] and [0 <= rangeA < 2^31] the waveform is
    produced and never leaves [-rangeA, rangeA], and for a positive range it
    reaches both ends. *)
Theorem CurrentValues_within_range (rangeA stepA : Z) :
  (0 < stepA)%Z -> (0 <= rangeA)%Z -> (rangeA < 2 ^ 31)%Z ->
  exists w,
    CurrentValues (inject_Z rangeA) (inject_Z stepA) = Ok w
    /\ (forall v, occurs v w ->
                  - inject_Z rangeA <= v /\ v <= inject_Z rangeA)
    /\ ((0 < rangeA)%Z ->
        occurs (inject_Z rangeA) w /\ occurs (- inject_Z rangeA) w).
Proof.
  intros Hs Hr _.
  pose proof (inject_Z_pos _ Hs) as Hs'.
  pose proof (inject_Z_nonneg _ Hr) as Hr'.
  destruct (CurrentValues_ok (inject_Z rangeA) _ Hs') as (w & Hw).
  destruct (exact_within_range _ _ _ Hs' Hr' Hw) as (Hin & Hends).
  exists w. split; [exact Hw|]. split; [exact Hin|].
  intros Hpos. apply Hends. apply inject_Z_pos. exact Hpos.
Qed.

Lemma CurrentValues_within_range_witness :
  exists w,
    CurrentValues (inject_Z 3) (inject_Z 2) = Ok w
    /\ (forall v, occurs v w -> - inject_Z 3 <= v /\ v <= inject_Z 3)
    /\ ((0 < 3)%Z -> occurs (inject_Z 3) w /\ occurs (- inject_Z 3) w).
Proof.
  apply (CurrentValues_within_range 3 2); [lia | lia | reflexivity].
Defined.

Lemma arange_empty (a b c : Q) :
  ~ c == 0 -> (b - a) / c <= 0 -> np.arange a b c = Ok [].
Proof.
  intros Hc Hle. unfold np.arange, np.arange_len.
  destruct (Qeq_bool c 0) eqn:E; [apply Qeq_bool_iff in E; contradiction|].
  assert (Hceil : (Qceiling ((b - a) / c) <= 0)%Z).
  { destruct (Z_le_gt_dec (Qceiling ((b - a) / c)) 0) as [H0 | H0]; [exact H0|].
    assert (Hlt : inject_Z 0 < (b - a) / c) by (apply Zlt_ceiling; lia).
    change (inject_Z 0) with 0 in Hlt. lra. }
  replace (Z.to_nat (Qceiling ((b - a) / c))) with 0%nat by lia.
  reflexivity.
Qed.

Lemma Qdiv_nonpos (x c : Q) : 0 <= x -> c < 0 -> x / c <= 0.
Proof.
  intros Hx Hc.
  assert (E : x / c == (- x) / (- c)) by (field; lra).
  rewrite E. apply Qle_shift_div_r; lra.
Qed.

(** X2.  With a negative step and a range that is not negative the three ramps
    are empty and the waveform is the single point 0; with a zero step
    [np.arange] raises and no waveform is built. *)
Theorem CurrentValues_degenerate_step (rangeA stepA : Q) :
  (stepA < 0 -> 0 <= rangeA -> CurrentValues rangeA stepA = Ok [0])
  /\ (stepA == 0 -> exists e, CurrentValues rangeA stepA = Raise e).
Proof.
  split.
  - intros Hs Hr. unfold CurrentValues.
    rewrite (arange_empty 0 rangeA stepA);
      [|lra | apply Qdiv_nonpos; lra].
    rewrite (arange_empty rangeA (- rangeA) (- stepA)); [|lra|].
    + rewrite (arange_empty (- rangeA) 0 stepA);
        [reflexivity | lra | apply Qdiv_nonpos; lra].
    + assert (E : (- rangeA - rangeA) / - stepA == (2 * rangeA) / stepA)
        by (field; lra).
      rewrite E. apply Qdiv_nonpos; lra.
  - intros Hs. unfold CurrentValues, np.arange.
    apply Qeq_bool_iff in Hs. rewrite Hs. eauto.
Qed.

Lemma CurrentValues_degenerate_step_witness :
  - (1 # 2) < 0 /\ 0 <= 1 /\ CurrentValues 1 (- (1 # 2)) = Ok [0]
  /\ 0 == 0 /\ exists e, CurrentValues 1 0 = Raise e.
Proof.
  pose proof (CurrentValues_degenerate_step 1 (- (1 # 2))) as (Hneg & _).
  pose proof (CurrentValues_degenerate_step 1 0) as (_ & Hzero).
  split; [reflexivity|]. split; [discriminate|]. split.
  - apply Hneg; [reflexivity | discriminate].
  - split; [reflexivity|]. apply Hzero. reflexivity.
Defined.

(** *** Consecutive set-points *)

Section Chains.
Context {A : Type} (R : A -> A -> Prop).

Lemma Sorted_consecutive (w : list A) :
  Sorted R w ->
  forall (i : nat) (a b : A),
    nth_error w i = Some a -> nth_error w (S i) = Some b -> R a b.
Proof.
  induction 1 as [|x w Hw IH Hhd]; intros i a b Ha Hb.
  - destruct i; discriminate.
  - destruct i as [|i].
    + cbn in Ha, Hb. injection Ha as <-.
      destruct Hhd as [|y w' Hxy]; [discriminate|].
      cbn in Hb. injection Hb as <-. exact Hxy.
    + cbn in Ha, Hb. exact (IH i a b Ha Hb).
Qed.

Lemma Sorted_append (d : A) (l1 l2 : list A) :
  Sorted R l1 -> Sorted R l2 ->
  (forall b, l1 <> [] -> hd_error l2 = Some b -> R (List.last l1 d) b) ->
  Sorted R (l1 ++ l2).
Proof.
  intros H1 H2. induction H1 as [|x l1 Hl1 IH Hhd]; intros Hjoin.
  - exact H2.
  - cbn [List.app]. constructor.
    + apply IH. intros b Hne Hb.
      destruct l1 as [|y l1]; [contradiction|]. apply (Hjoin b); [discriminate | exact Hb].
    + destruct Hhd as [|y l1' Hxy].
      * destruct l2 as [|b l2]; constructor.
        apply (Hjoin b); [discriminate | reflexivity].
      * constructor. exact Hxy.
Qed.

Lemma Sorted_map_seq (f : nat -> A) (n : nat) :
  (forall i, R (f i) (f (S i))) ->
  forall k, Sorted R (map f (seq k n)).
Proof.
  intros Hf. induction n as [|n IH]; intros k; cbn [seq map].
  - constructor.
  - constructor; [apply IH|].
    destruct n; cbn [seq map]; constructor. apply Hf.
Qed.

Lemma last_map_seq (f : nat -> A) (n : nat) (d : A) :
  List.last (map f (seq 0 (S n))) d = f n.
Proof. rewrite seq_S, map_app. cbn [map Nat.add]. apply last_last. Qed.

End Chains.

(** The last index of a non-empty [np.arange]: the value there is before
    the stop, and one more step reaches or passes it. *)
Lemma arange_len_succ (a b c : Q) (m : nat) :
  np.arange_len a b c = S m ->
  inject_Z (Z.of_nat m) < (b - a) / c
  /\ (b - a) / c <= inject_Z (Z.of_nat m) + 1.
Proof.
  unfold np.arange_len. intros Hlen.
  assert (Hceil : Qceiling ((b - a) / c) = (Z.of_nat m + 1)%Z) by lia.
  split.
  - apply Zlt_ceiling. lia.
  - pose proof (Qle_ceiling ((b - a) / c)) as Hle.
    rewrite Hceil, inject_Z_plus in Hle. exact Hle.
Qed.

Lemma arange_len_positive (a b c : Q) :
  0 < (b - a) / c -> exists m, np.arange_len a b c = S m.
Proof.
  intros Hpos. unfold np.arange_len.
  assert (H0 : (0 < Qceiling ((b - a) / c))%Z) by (apply Zlt_ceiling; exact Hpos).
  exists (Z.to_nat (Qceiling ((b - a) / c) - 1)). lia.
Qed.

Lemma inject_Z_succ (i : nat) :
  inject_Z (Z.of_nat (S i)) == inject_Z (Z.of_nat i) + 1.
Proof. rewrite Nat2Z.inj_succ. unfold Z.succ. rewrite inject_Z_plus. reflexivity. Qed.

Lemma arange_last_up (a b c : Q) (m : nat) :
  0 < c -> np.arange_len a b c = S m ->
  a + inject_Z (Z.of_nat m) * c < b /\ b <= a + inject_Z (Z.of_nat m) * c + c.
Proof.
  intros Hc Hlen. destruct (arange_len_succ _ _ _ _ Hlen) as (Hlo & Hhi).
  assert (Hx : (b - a) / c * c == b - a) by (field; lra).
  apply (Qmult_lt_compat_r _ _ c Hc) in Hlo.
  apply (Qmult_le_compat_r _ _ c) in Hhi; [|lra].
  split; lra.
Qed.

Lemma arange_last_down (a b c : Q) (m : nat) :
  c < 0 -> np.arange_len a b c = S m ->
  b < a + inject_Z (Z.of_nat m) * c /\ a + inject_Z (Z.of_nat m) * c + c <= b.
Proof.
  intros Hc Hlen. destruct (arange_len_succ _ _ _ _ Hlen) as (Hlo & Hhi).
  assert (Hx : (b - a) / c * - c == a - b) by (field; lra).
  assert (Hc' : 0 < - c) by lra.
  apply (Qmult_lt_compat_r _ _ (- c) Hc') in Hlo.
  apply (Qmult_le_compat_r _ _ (- c)) in Hhi; [|lra].
  split; lra.
Qed.

(** Between two consecutive values [start + i * step] taken exactly the
    change is at most one step, also where the three ramps join and where
    the final zero is appended. *)
Lemma exact_smooth (rangeA stepA : Q) (w : list Q) :
  0 < stepA -> 0 <= rangeA -> CurrentValues rangeA stepA = Ok w ->
  smooth stepA w.
Proof.
  intros Hs Hr. unfold CurrentValues, np.arange.
  assert (Hs0 : Qeq_bool stepA 0 = false).
  { destruct (Qeq_bool stepA 0) eqn:E; [|reflexivity].
    apply Qeq_bool_iff in E. lra. }
  assert (Hs1 : Qeq_bool (- stepA) 0 = false).
  { destruct (Qeq_bool (- stepA) 0) eqn:E; [|reflexivity].
    apply Qeq_bool_iff in E. lra. }
  rewrite Hs0, Hs1. intros [= <-].
  unfold smooth. apply Sorted_consecutive.
  unfold np.append, np.hstack. cbn [concat].
  rewrite app_nil_r, <- !app_assoc.
  destruct (Qlt_le_dec 0 rangeA) as [Hpos | Hzero].
  - destruct (arange_len_positive 0 rangeA stepA) as (m1 & H1).
    { apply Qlt_div_iff; lra. }
    destruct (arange_len_positive rangeA (- rangeA) (- stepA)) as (m2 & H2).
    { assert (E : (- rangeA - rangeA) / - stepA == (2 * rangeA) / stepA)
        by (field; lra).
      rewrite E. apply Qlt_div_iff; lra. }
    destruct (arange_len_positive (- rangeA) 0 stepA) as (m3 & H3).
    { apply Qlt_div_iff; lra. }
    destruct (arange_last_up _ _ _ _ Hs H1) as (U1 & U2).
    destruct (arange_last_down rangeA (- rangeA) (- stepA) m2 ltac:(lra) H2)
      as (D1 & D2).
    destruct (arange_last_up _ _ _ _ Hs H3) as (B1 & B2).
    rewrite H1, H2, H3.
    apply (Sorted_append _ 0).
    + apply Sorted_map_seq. intros i. apply Qabs_Qle_condition.
      rewrite inject_Z_succ. split; lra.
    + apply (Sorted_append _ 0).
      * apply Sorted_map_seq. intros i. apply Qabs_Qle_condition.
        rewrite inject_Z_succ. split; lra.
      * apply (Sorted_append _ 0).
        -- apply Sorted_map_seq. intros i. apply Qabs_Qle_condition.
           rewrite inject_Z_succ. split; lra.
        -- repeat constructor.
        -- intros b _ [= <-]. rewrite last_map_seq.
           apply Qabs_Qle_condition. split; lra.
      * intros b _ Hb. cbn in Hb. injection Hb as <-. rewrite last_map_seq.
        apply Qabs_Qle_condition. change (inject_Z (Z.of_nat 0)) with 0.
        split; lra.
    + intros b _ Hb. cbn in Hb. injection Hb as <-. rewrite last_map_seq.
      apply Qabs_Qle_condition. change (inject_Z (Z.of_nat 0)) with 0.
      split; lra.
  - assert (L1 : np.arange_len 0 rangeA stepA = 0%nat).
    { pose proof (arange_empty 0 rangeA stepA ltac:(lra)) as H.
      unfold np.arange in H. rewrite Hs0 in H.
      assert (Hle : (rangeA - 0) / stepA <= 0).
      { apply Qle_shift_div_r; lra. }
      specialize (H Hle). injection H as H.
      destruct (np.arange_len 0 rangeA stepA); [reflexivity | discriminate]. }
    assert (L2 : np.arange_len rangeA (- rangeA) (- stepA) = 0%nat).
    { pose proof (arange_empty rangeA (- rangeA) (- stepA) ltac:(lra)) as H.
      unfold np.arange in H. rewrite Hs1 in H.
      assert (Hle : (- rangeA - rangeA) / - stepA <= 0).
      { assert (E : (- rangeA - rangeA) / - stepA == (2 * rangeA) / stepA)
          by (field; lra).
        rewrite E. apply Qle_shift_div_r; lra. }
      specialize (H Hle). injection H as H.
      destruct (np.arange_len rangeA (- rangeA) (- stepA));
        [reflexivity | discriminate]. }
    assert (L3 : np.arange_len (- rangeA) 0 stepA = 0%nat).
    { pose proof (arange_empty (- rangeA) 0 stepA ltac:(lra)) as H.
      unfold np.arange in H. rewrite Hs0 in H.
      assert (Hle : (0 - - rangeA) / stepA <= 0).
      { apply Qle_shift_div_r; lra. }
      specialize (H Hle). injection H as H.
      destruct (np.arange_len (- rangeA) 0 stepA); [reflexivity | discriminate]. }
    rewrite L1, L2, L3. cbn. repeat constructor.
Qed.

(** X3.  For integers [0 < stepA] and [0 <= rangeA < 2^31] the waveform is
    produced, and between two consecutive set-points the current changes by
    at most one step, also where the three ramps join and where the final
    zero is appended. *)
Theorem CurrentValues_smooth (rangeA stepA : Z) :
  (0 < stepA)%Z -> (0 <= rangeA)%Z -> (rangeA < 2 ^ 31)%Z ->
  exists w,
    CurrentValues (inject_Z rangeA) (inject_Z stepA) = Ok w
    /\ smooth (inject_Z stepA) w.
Proof.
  intros Hs Hr _.
  pose proof (inject_Z_pos _ Hs) as Hs'.
  pose proof (inject_Z_nonneg _ Hr) as Hr'.
  destruct (CurrentValues_ok (inject_Z rangeA) _ Hs') as (w & Hw).
  exists w. split; [exact Hw|]. exact (exact_smooth _ _ _ Hs' Hr' Hw).
Qed.

Lemma CurrentValues_smooth_witness :
  exists w,
    CurrentValues (inject_Z 3) (inject_Z 2) = Ok w
    /\ smooth (inject_Z 2) w.
Proof.
  apply (CurrentValues_smooth 3 2); [lia | lia | reflexivity].
Defined.

(** ** More on the nanovoltmeter *)




(** X5.  The class calls [self.query], which neither it nor its base classes
    define.  [measure_voltage(iterations)] with [iterations >= 1] writes the
    trigger command and then raises AttributeError at the first [READ?]:
    no query reaches the instrument and no value is returned.
    [get_last_error] raises the same way and sends nothing. *)
Theorem measure_voltage_raises_AttributeError `{Python} (env : environment)
    (s : Keithley2182.self) (iterations : Z) (tr : list event) :
  (1 <= iterations)%Z ->
  Keithley2182.measure_voltage env s iterations tr
    = (Raise (AttributeError "query"),
       tr ++ [Write (Keithley2182.adapter s) "INITIATE:CONT OFF"])
  /\ Keithley2182.get_last_error env s tr
    = (Raise (AttributeError "query"), tr).
Proof.
  intros Hit. split; [|reflexivity].
  unfold Keithley2182.measure_voltage.
  unfold mbind at 1 2, M_bind at 1 2, adapter_write, tell.
  destruct (Z.to_nat iterations) as [|rounds] eqn:Hrounds; [lia|].
  rewrite measure_rounds_query. reflexivity.
Qed.

Lemma measure_voltage_raises_AttributeError_witness :
  (1 <= 1)%Z
  /\ Keithley2182.measure_voltage echo_env (Keithley2182.init "GPIB::25") 1 []
     = (Raise (AttributeError "query"), [Write "GPIB::25" "INITIATE:CONT OFF"])
  /\ Keithley2182.get_last_error echo_env (Keithley2182.init "GPIB::25") []
     = (Raise (AttributeError "query"), []).
Proof.
  split; [lia|].
  apply (measure_voltage_raises_AttributeError echo_env
           (Keithley2182.init "GPIB::25") 1 []). lia.
Defined.

(** X7.  [set_range] never reads its argument: the command it builds depends on
    the attribute [mes_range] of the object alone, and on an object that has
    no such attribute (as the constructor and the other methods leave it)
    the call raises AttributeError and writes nothing, whatever range is
    asked for. *)
Theorem set_range_ignores_argument `{Python} (py_str : pyval -> string)
    (s : Keithley2182.self) (mes_range : pyval) (tr : list event) :
  Keithley2182.set_range py_str s ∅ mes_range tr
    = (Raise (AttributeError "mes_range"), tr)
  /\ (forall (extra : gmap string pyval) (other : pyval),
        Keithley2182.set_range py_str s extra mes_range tr
        = Keithley2182.set_range py_str s extra other tr)
  /\ (forall (extra : gmap string pyval) (range : pyval),
        extra !! "mes_range" = Some range ->
        Keithley2182.set_range py_str s extra mes_range tr
        = (Ok tt,
           tr ++ [Write (Keithley2182.adapter s)
                    ("SENSE:VOLTAGE:CHANNEL "
                     +:+ Keithley2182.int_text (Keithley2182.channel s)
                     +:+ ":RANGE:UPPER " +:+ py_str range)])).
Proof.
  split; [reflexivity|]. split; [reflexivity|].
  intros extra range Hrange. unfold Keithley2182.set_range. rewrite Hrange.
  unfold adapter_write, tell. cbn [format nat_of_ascii nth Nat.sub].
  rewrite append_empty_r. reflexivity.
Qed.

Lemma set_range_ignores_argument_witness :
  let extra : gmap string pyval := {["mes_range" := PyStr "0.01"]} in
  let text (v : pyval) := match v with PyStr t => t | _ => "" end in
  extra !! "mes_range" = Some (PyStr "0.01")
  /\ Keithley2182.set_range text (Keithley2182.init "GPIB::25") extra
       (PyStr "10") []
     = (Ok tt, [Write "GPIB::25" "SENSE:VOLTAGE:CHANNEL 1:RANGE:UPPER 0.01"]).
Proof.
  intros extra text. split; [reflexivity|].
  pose proof (set_range_ignores_argument text (Keithley2182.init "GPIB::25")
                (PyStr "10") []) as (_ & _ & Hset).
  exact (Hset extra (PyStr "0.01") eq_refl).
Defined.

(** X8.  [set_analog_filtering] addresses the channel recorded in the object:
    after [set_channel(n)] that is [n] for a valid [n], and for any other
    number the channel recorded before. *)
Theorem set_analog_filtering_after_set_channel `{Python}
    (s : Keithley2182.self) (channel_number : Z) (Status : string)
    (tr : list event) :
  let valid := ((channel_number =? 0) || (channel_number =? 1)
                || (channel_number =? 2))%Z in
  exists first,
    (s' ← Keithley2182.set_channel s channel_number;
     Keithley2182.set_analog_filtering s' Status) tr
    = (Ok tt,
       tr ++ [first;
              Write (Keithley2182.adapter s)
                (":SENSE:VOLTAGE:CHANNEL "
                 +:+ Keithley2182.int_text
                       (if valid then channel_number
                        else Keithley2182.channel s)
                 +:+ ":LPASS " +:+ Status)]).
Proof.
  intros valid. subst valid. unfold mbind at 1, M_bind at 1.
  unfold Keithley2182.set_channel.
  destruct (Z.eqb_spec channel_number 1) as [-> | H1];
    [|destruct (Z.eqb_spec channel_number 2) as [-> | H2];
      [|destruct (Z.eqb_spec channel_number 0) as [-> | H0]]];
    eexists;
    unfold mbind, M_bind, Keithley2182.set_analog_filtering, adapter_write,
      tell;
    cbn [format nat_of_ascii nth Nat.sub Keithley2182.adapter mret M_ret
         Keithley2182.channel Keithley2182.with_channel Z.eqb orb];
    rewrite append_empty_r, <- app_assoc; reflexivity.
Qed.

(** X9.  [setup] selects channel 2 on the instrument but the object keeps the
    channel it recorded: on a meter as the constructor leaves it, a
    [set_analog_filtering] after [setup] addresses channel 1. *)
Theorem setup_keeps_recorded_channel `{Python} (adapter : string)
    (Status : string) (tr : list event) :
  let s := Keithley2182.init adapter in
  (Keithley2182.setup s;; Keithley2182.set_analog_filtering s Status) tr
  = (Ok tt,
     tr ++ map (Write adapter)
             ["SENSe:VOLTage"; "SENSe:CHANnel 2"; "SENSe:VOLTage:NPLCycles 5";
              "SYSTem:FAZero OFF"; "SYSTem:AZERo OFF"; "SYSTem:LSYNc ON";
              "SENSe:VOLTage:CHANnel2:RANGe:AUTO ON";
              "SENSe:VOLTage:CHANnel2:LPASs OFF"; "INITiate";
              "INITiate:CONTinuous OFF";
              ":SENSE:VOLTAGE:CHANNEL " +:+ Keithley2182.int_text 1
              +:+ ":LPASS " +:+ Status]).
Proof.
  intros s. unfold s, Keithley2182.setup, Keithley2182.set_analog_filtering,
    Keithley2182.init, mbind, M_bind, adapter_write, tell.
  cbn [for_each List.app Keithley2182.adapter Keithley2182.channel mbind
       M_bind mret M_ret format nat_of_ascii nth Nat.sub map].
  unfold mbind, M_bind, tell. cbn [mret M_ret].
  rewrite append_empty_r, <- !app_assoc. reflexivity.
Qed.

(** ** More on the current source *)

Lemma error_two_values `{Python} (env : environment) (s : Keithley6220.self)
    (tr : list event) (code : pyval) (m : string) :
  env_values env tr (Keithley6220.adapter s) ":system:error?"
    = [code; PyStr m] ->
  Keithley6220.error env s tr
  = (Ok (code, remove_char (ascii_of_nat 34) m),
     tr ++ [AskValues (Keithley6220.adapter s) ":system:error?"
              [code; PyStr m]]).
Proof.
  intros Hv. unfold Keithley6220.error, mbind, M_bind, adapter_values.
  rewrite Hv. reflexivity.
Qed.

Section ErrorQueue.
Context `{Python} (env : environment) (s : Keithley6220.self) (n : nat).

(** The first [n] answers to the error query report a non-zero code. *)
Hypothesis errors_first :
  forall tr, (count_values tr < n)%nat ->
    exists c m,
      env_values env tr (Keithley6220.adapter s) ":system:error?"
        = [PyNum c; PyStr m] /\ ~ c == 0.

(** The answer after them reports code 0. *)
Hypothesis then_no_error :
  forall tr, count_values tr = n ->
    exists c m,
      env_values env tr (Keithley6220.adapter s) ":system:error?"
        = [PyNum c; PyStr m] /\ c == 0.

Lemma check_errors_loop_drains (d : nat) :
  forall (fuel : nat) (tr : list event) (c : Q) (m : string),
    (count_values tr + d = S (S n))%nat -> (d <= S fuel)%nat ->
    (d = 1%nat -> c == 0) -> ((1 < d)%nat -> ~ c == 0) -> (1 <= d)%nat ->
    exists new,
      Keithley6220.check_errors_loop env fuel s (PyNum c) m tr
        = (Ok (Some tt), tr ++ new)
      /\ count_values new = (d - 1)%nat
      /\ length (info_lines new) = (d - 1)%nat.
Proof.
  induction d as [|d IH]; intros fuel tr c m Hcount Hfuel Hzero Hnonzero Hd;
    [lia|].
  destruct d as [|d].
  - assert (Hc : Keithley6220.nonzero (PyNum c) = false).
    { cbn. apply negb_false_iff, Qeq_bool_iff, Hzero. reflexivity. }
    exists []. rewrite app_nil_r.
    destruct fuel; cbn [Keithley6220.check_errors_loop]; rewrite Hc;
      repeat split; reflexivity.
  - assert (Hc : Keithley6220.nonzero (PyNum c) = true).
    { cbn. apply negb_true_iff. destruct (Qeq_bool c 0) eqn:E; [|reflexivity].
      apply Qeq_bool_iff in E. exfalso. apply Hnonzero; [lia | exact E]. }
    destruct fuel as [|fuel]; [lia|].
    cbn [Keithley6220.check_errors_loop]. rewrite Hc.
    unfold mbind at 1 2 3 4, M_bind at 1 2 3 4, time_time at 1, lift,
      Keithley6220.error_message, log at 1, tell.
    set (tr1 := tr ++ [Log "info" _]).
    assert (Hcount1 : count_values tr1 = count_values tr).
    { unfold tr1. rewrite count_values_app. cbn. lia. }
    assert (Hnext : exists c' m',
               env_values env tr1 (Keithley6220.adapter s) ":system:error?"
                 = [PyNum c'; PyStr m']
               /\ (S d = 1%nat -> c' == 0) /\ ((1 < S d)%nat -> ~ c' == 0)).
    { destruct d as [|d].
      - destruct (then_no_error tr1) as (c' & m' & Hv & Hc'); [lia|].
        exists c', m'. split; [exact Hv|]. split; [auto | lia].
      - destruct (errors_first tr1) as (c' & m' & Hv & Hc'); [lia|].
        exists c', m'. split; [exact Hv|]. split; [lia | auto]. }
    destruct Hnext as (c' & m' & Hv & Hz' & Hnz').
    rewrite (error_two_values env s tr1 _ _ Hv).
    unfold mbind at 1 2, M_bind at 1 2, time_time.
    set (tr2 := tr1 ++ [AskValues _ _ _]).
    assert (Hcount2 : count_values tr2 = S (count_values tr)).
    { unfold tr2. rewrite count_values_app, Hcount1. cbn. lia. }
    destruct (Qlt_le_dec 10 (env_time env tr2 - env_time env tr)) as [Hlate | Hearly].
    + unfold log, tell.
      set (tr3 := tr2 ++ [Log "warning" _]).
      assert (Hcount3 : count_values tr3 = S (count_values tr)).
      { unfold tr3. rewrite count_values_app, Hcount2. cbn. lia. }
      destruct (IH fuel tr3 c' (remove_char (ascii_of_nat 34) m'))
        as (new & Hrun & Hnew & Hinfo); [lia | lia | exact Hz' | exact Hnz' | lia|].
      rewrite Hrun. eexists. unfold tr3, tr2, tr1. rewrite <- !app_assoc.
      split; [reflexivity|].
      cbn [List.app count_values info_lines String.eqb Ascii.eqb Bool.eqb length].
      rewrite Hnew, Hinfo. split; lia.
    + cbn [mret M_ret].
      destruct (IH fuel tr2 c' (remove_char (ascii_of_nat 34) m'))
        as (new & Hrun & Hnew & Hinfo); [lia | lia | exact Hz' | exact Hnz' | lia|].
      rewrite Hrun. eexists. unfold tr2, tr1. rewrite <- !app_assoc.
      split; [reflexivity|].
      cbn [List.app count_values info_lines String.eqb Ascii.eqb Bool.eqb length].
      rewrite Hnew, Hinfo. split; lia.
Qed.

End ErrorQueue.

(** X10.  When the source reports [n] errors and then code 0, [check_errors]
    returns once the loop may run [n] times: it has then made [n + 1] error
    queries and logged one line per error. *)
Theorem check_errors_drains_queue `{Python} (env : environment)
    (s : Keithley6220.self) (n fuel : nat) (tr : list event) :
  (forall tr', (count_values tr' < n)%nat ->
     exists c m,
       env_values env tr' (Keithley6220.adapter s) ":system:error?"
         = [PyNum c; PyStr m] /\ ~ c == 0) ->
  (forall tr', count_values tr' = n ->
     exists c m,
       env_values env tr' (Keithley6220.adapter s) ":system:error?"
         = [PyNum c; PyStr m] /\ c == 0) ->
  count_values tr = 0%nat -> (n <= fuel)%nat ->
  exists new,
    Keithley6220.check_errors env fuel s tr = (Ok (Some tt), tr ++ new)
    /\ count_values new = S n
    /\ length (info_lines new) = n.
Proof.
  intros Hfirst Hthen Htr Hfuel. unfold Keithley6220.check_errors.
  unfold mbind at 1, M_bind at 1.
  assert (Hv : exists c m,
             env_values env tr (Keithley6220.adapter s) ":system:error?"
               = [PyNum c; PyStr m]
             /\ (S n = 1%nat -> c == 0) /\ ((1 < S n)%nat -> ~ c == 0)).
  { destruct n as [|n'].
    - destruct (Hthen tr Htr) as (c & m & Hv & Hc).
      exists c, m. split; [exact Hv|]. split; [auto | lia].
    - destruct (Hfirst tr) as (c & m & Hv & Hc); [lia|].
      exists c, m. split; [exact Hv|]. split; [lia | auto]. }
  destruct Hv as (c & m & Hv & Hz & Hnz).
  rewrite (error_two_values env s tr _ _ Hv).
  destruct (check_errors_loop_drains env s n Hfirst Hthen (S n) fuel
              (tr ++ [AskValues (Keithley6220.adapter s) ":system:error?"
                        [PyNum c; PyStr m]])
              c (remove_char (ascii_of_nat 34) m))
    as (new & Hrun & Hnew & Hinfo).
  - rewrite count_values_app, Htr. cbn. lia.
  - lia.
  - exact Hz.
  - exact Hnz.
  - lia.
  - rewrite Hrun. eexists. rewrite <- app_assoc. split; [reflexivity|].
    cbn [List.app count_values info_lines]. rewrite Hnew, Hinfo. split; lia.
Qed.

Lemma check_errors_drains_queue_witness :
  count_values [] = 0%nat /\ (2 <= 5)%nat
  /\ exists new,
       Keithley6220.check_errors (flaky_env 2) 5 (Keithley6220.init "GPIB::1") []
         = (Ok (Some tt), [] ++ new)
       /\ count_values new = 3%nat
       /\ length (info_lines new) = 2%nat.
Proof.
  split; [reflexivity|]. split; [lia|].
  apply (check_errors_drains_queue (flaky_env 2) (Keithley6220.init "GPIB::1")
           2 5 []); [| |reflexivity|lia].
  - intros tr' Hlt. exists (-113), (quoted "Undefined header").
    cbn [env_values flaky_env]. apply Nat.ltb_lt in Hlt. rewrite Hlt.
    split; [reflexivity | discriminate].
  - intros tr' Heq. exists 0, (quoted "No error").
    cbn [env_values flaky_env]. rewrite Heq.
    split; reflexivity.
Defined.

(** X11.  When the error query yields fewer than two values, the retry reads
    a string and takes its first two characters as code and message.
    [check_errors] then does not return: it raises IndexError when the
    string has fewer than two characters, and otherwise TypeError on
    formatting the log line, the code being a one-character string and no
    number.  The query and the read are all that happens: nothing is
    logged. *)
Theorem check_errors_short_answer `{Python} (env : environment)
    (s : Keithley6220.self) (fuel : nat) (tr : list event) :
  let values := env_values env tr (Keithley6220.adapter s) ":system:error?" in
  let tr1 := tr ++ [AskValues (Keithley6220.adapter s) ":system:error?"
                      values] in
  let answer := env_read env tr1 (Keithley6220.adapter s) in
  (length values < 2)%nat ->
  (1 <= fuel)%nat ->
  Keithley6220.check_errors env fuel s tr
  = (Raise (if (String.length answer <? 2)%nat then IndexError
            else TypeError),
     tr1 ++ [Read (Keithley6220.adapter s) answer]).
Proof.
  intros values tr1 answer Hshort Hfuel. apply Nat.ltb_lt in Hshort.
  unfold Keithley6220.check_errors, Keithley6220.error, mbind, M_bind,
    adapter_values, adapter_read, lift, Keithley6220.char_at,
    Keithley6220.strip_quotes.
  fold values. rewrite Hshort. fold tr1. fold answer.
  destruct answer as [|c0 [|c1 rest]]; [reflexivity | reflexivity|].
  destruct fuel as [|fuel]; [lia|].
  cbn [String.get String.length Nat.ltb Nat.leb
       Keithley6220.check_errors_loop Keithley6220.nonzero].
  reflexivity.
Qed.

Lemma check_errors_short_answer_witness :
  (length (env_values (short_answer_env "-113") []
             "GPIB::1" ":system:error?") < 2)%nat
  /\ (1 <= 1)%nat
  /\ Keithley6220.check_errors (short_answer_env "-113") 1
       (Keithley6220.init "GPIB::1") []
     = (Raise TypeError,
        [AskValues "GPIB::1" ":system:error?" []; Read "GPIB::1" "-113"]).
Proof.
  split; [cbn; lia|]. split; [lia|].
  apply (check_errors_short_answer (short_answer_env "-113")
           (Keithley6220.init "GPIB::1") 1 []); cbn; lia.
Defined.

(** X12.  [ramp_to_current] never writes to the instrument.  When the object
    carries a number as [source_current], a negative number of steps raises
    ValueError in [np.linspace], zero steps give an empty ramp and the call
    returns, and with one step or more the first assignment to [current]
    raises TypeError, before any command and any pause. *)
Theorem ramp_to_current_from_attribute `{Python} (s : Keithley6220.self)
    (target_current : Q) (steps : Z) (pause : Q) (tr : list event) :
  snd (Keithley6220.ramp_to_current s target_current steps pause tr) = tr
  /\ (forall start : Q,
        Keithley6220.dict s !! "source_current" = Some (PyNum start) ->
        fst (Keithley6220.ramp_to_current s target_current steps pause tr)
        = if (steps <? 0)%Z then Raise ValueError
          else if (steps =? 0)%Z then Ok tt
          else Raise TypeError).
Proof.
  unfold Keithley6220.ramp_to_current, Keithley6220.getattr.
  destruct (Keithley6220.dict s !! "source_current") as [[start| |]|];
    try (split; [reflexivity | intros ? [=]]).
  assert (Hrun :
    (lift (Ok (PyNum start)) ≫= fun source_current =>
       match source_current with
       | PyNum start =>
           currents ← lift (np.linspace start target_current steps);
           for_each currents (fun current =>
             Keithley6220.set_current s current;;
             sleep pause;;
             mret Continue)
       | _ => raise TypeError
       end) tr
    = (if (steps <? 0)%Z then Raise ValueError
       else if (steps =? 0)%Z then Ok tt
       else Raise TypeError, tr)).
  { unfold mbind at 1 2, M_bind at 1 2, lift, np.linspace.
    destruct (Z.ltb_spec steps 0) as [Hneg | Hge]; [reflexivity|].
    destruct (Z.eqb_spec steps 0) as [-> | Hnz]; [reflexivity|].
    destruct (Z.to_nat steps) as [|n] eqn:En; [lia|].
    reflexivity. }
  rewrite Hrun. split; [reflexivity|]. intros start' [= <-]. reflexivity.
Qed.

Lemma ramp_to_current_from_attribute_witness :
  let src := Keithley6220.setattr (Keithley6220.init "GPIB::1")
               "source_current" (PyNum 0) in
  Keithley6220.dict src !! "source_current" = Some (PyNum 0)
  /\ Keithley6220.ramp_to_current src 5e-3 30 20e-3 [] = (Raise TypeError, [])
  /\ Keithley6220.ramp_to_current src 5e-3 0 20e-3 [] = (Ok tt, [])
  /\ Keithley6220.ramp_to_current src 5e-3 (-1) 20e-3 []
     = (Raise ValueError, []).
Proof.
  intros src.
  assert (Hrun : forall steps : Z,
            Keithley6220.ramp_to_current src 5e-3 steps 20e-3 []
            = (if (steps <? 0)%Z then Raise ValueError
               else if (steps =? 0)%Z then Ok tt
               else Raise TypeError, [])).
  { intros steps.
    destruct (ramp_to_current_from_attribute src 5e-3 steps 20e-3 [])
      as (Htrace & Hresult).
    specialize (Hresult 0 eq_refl).
    destruct (Keithley6220.ramp_to_current src 5e-3 steps 20e-3 [])
      as [r tr']. cbn [fst snd] in Htrace, Hresult. subst. reflexivity. }
  split; [reflexivity|]. split; [|split].
  - exact (Hrun 30%Z).
  - exact (Hrun 0%Z).
  - exact (Hrun (-1)%Z).
Defined.

(** ** More on the procedure *)

(** X14.  [startup] writes the same commands whatever the parameters of the
    procedure: the ten commands of the meter's setup, then to the source
    auto-range on, reset, clear and output on.  The range computed from
    [current_range] and the compliance of 100 V are stored on the source
    object under names that are no properties of the class, so neither is
    written to the instrument. *)
Theorem startup_sends_no_range `{Python} (s : IV.self) (tr : list event) :
  exists src new,
    IV.startup s tr
    = (Ok {| IV.current_range := IV.current_range s;
             IV.current_step := IV.current_step s;
             IV.delay := IV.delay s;
             IV.meter := Some (Keithley2182.init "GPIB::25");
             IV.source := Some src |},
       tr ++ new)
    /\ commands new
       = map (pair "GPIB::25")
           ["SENSe:VOLTage"; "SENSe:CHANnel 2"; "SENSe:VOLTage:NPLCycles 5";
            "SYSTem:FAZero OFF"; "SYSTem:AZERo OFF"; "SYSTem:LSYNc ON";
            "SENSe:VOLTage:CHANnel2:RANGe:AUTO ON";
            "SENSe:VOLTage:CHANnel2:LPASs OFF"; "INITiate";
            "INITiate:CONTinuous OFF"]
         ++ map (pair "GPIB::1")
              ["CURRent:RANGe:AUTO 1"; "*RST"; "*CLS"; "OUTPUT ON"]
    /\ Keithley6220.adapter src = "GPIB::1"
    /\ Keithley6220.dict src !! "source_current_range"
       = Some (PyNum (IV.current_range s * 1e-6))
    /\ Keithley6220.dict src !! "complinance_voltage" = Some (PyNum 100)
    /\ Keithley6220.dict src !! "source_current" = None.
Proof.
  eexists. eexists. split; [|split; [|split; [|split; [|split]]]].
  - unfold IV.startup, Keithley2182.setup, Keithley6220.enable_auto_range,
      Keithley6220.reset, Keithley6220.enable_source, mbind, M_bind, log,
      sleep, adapter_write, tell.
    change (Qle_bool 0 2) with true. cbv iota.
    cbn [for_each List.app mbind M_bind mret M_ret Keithley2182.adapter
         Keithley2182.init Keithley6220.adapter Keithley6220.init
         Keithley6220.setattr map].
    unfold mbind, M_bind, tell. cbn [mret M_ret].
    rewrite <- !app_assoc. reflexivity.
  - reflexivity.
  - reflexivity.
  - cbn [Keithley6220.dict Keithley6220.setattr].
    rewrite lookup_insert_ne by discriminate. apply lookup_insert_eq.
  - cbn [Keithley6220.dict Keithley6220.setattr]. apply lookup_insert_eq.
  - cbn [Keithley6220.dict Keithley6220.setattr Keithley6220.init].
    rewrite !lookup_insert_ne by discriminate. apply lookup_empty.
Qed.

(** *** Where a sweep stops *)

(** X15.  A sweep over a waveform that is not empty logs its start and the
    first set-point and then raises, before commanding any current:
    AttributeError when the procedure has no source (when [startup] was
    not run), and otherwise TypeError at the first assignment to the
    property [current] of the source.  No delay is waited for, no voltage
    is measured and no record is emitted. *)
Theorem sweep_stops_at_first_assignment `{Python} (env : environment) (s : IV.self)
    (current : Q) (rest : list Q) (tr : list event) :
  IV.sweep env s (current :: rest) tr
  = (Raise (match IV.source s with
            | Some _ => TypeError
            | None => AttributeError "source"
            end),
     tr ++ [Log "info" "Starting to sweep through current";
            Log "debug"
              (percent "Measuring current: %g mA" [fmt_g (current * 1e-6)])]).
Proof.
  unfold IV.sweep, enumerate. cbn [map length seq combine for_each].
  unfold IV.sweep_point, mbind, M_bind, log, lift, IV.attribute,
    Keithley6220.set_current, Instrument.setting_set, raise, tell.
  destruct (IV.source s) as [src|]; rewrite <- app_assoc; reflexivity.
Qed.

(** *** The records of a sweep *)

